(** * azd: ARM deployment wrapper, kubectl wrapper and test mock context

    A shallow embedding of three Go files of the [azd] CLI:
    - [cli/azd/pkg/azapi/deployments.go]   (module [Azapi]),
    - [cli/azd/pkg/tools/kubectl/kubectl.go] (module [Kubectl]),
    - the mock context builder of [cli/azd/test/mocks] (module [Mocks]).

    The cloud SDK, the process runner, the file system and the
    dependency-injection container are external to these files.  They are
    modelled as records of responses (oracles); every call the Go code makes
    to them is appended to a call log, so that statements about "which
    request is issued" are statements about that log. *)

From Stdlib Require Import ZArith Lia Ascii String.
From stdpp Require Import gmap strings list fin_maps.

Set Warnings "-register-all".

(* ===================================================================== *)
(** * Go values shared by the three packages *)
(* ===================================================================== *)

Module Go.

(** A Go slice: [nil] is distinguishable from an empty, allocated slice. *)
Inductive slice (A : Type) : Type :=
  | nil_slice
  | mk_slice (l : list A).
Arguments nil_slice {A}.
Arguments mk_slice {A} l.

Definition elems {A} (s : slice A) : list A :=
  match s with
  | nil_slice => []
  | mk_slice l => l
  end.

(** [append(s, xs...)]: appending nothing to [nil] stays [nil]; every
    other case yields an allocated slice. *)
Definition append {A} (s xs : slice A) : slice A :=
  match s, elems xs with
  | nil_slice, [] => nil_slice
  | _, l => mk_slice (elems s ++ l)
  end.

(** [*azcore.ResponseError].  [RawBody] is the outcome of
    [io.ReadAll(RawResponse.Body)] ([None] when the read fails) and
    [ErrorText] is what the [Error()] method prints.  Response errors
    produced by the SDK always carry their [RawResponse]. *)
Record ResponseError : Type := {
  StatusCode : Z;
  ErrorCode : string;
  RawBody : option string;
  ErrorText : string
}.

(** Go [error] values as far as the wrappers can tell them apart. *)
Inductive error : Type :=
  | OtherError (text : string)
      (* any error that is neither a response error nor a wrapper *)
  | ErrResponse (r : ResponseError)
      (* a [*azcore.ResponseError] *)
  | Errorf (msg : string) (inner : error)
      (* [fmt.Errorf(msg + "%w", inner)]; [Unwrap] gives [inner] *)
  | ErrDeploymentNotFound
      (* the package-level sentinel of deployments.go, line 74 *)
  | AzureDeploymentError (text : string).
      (* [NewAzureDeploymentError(text)], which is declared in another file
         of the package; all that is known of it here is its argument *)

(** [errors.As(err, &target)] for [target : *azcore.ResponseError]: the
    first response error on the [Unwrap] chain. *)
Fixpoint errors_As (err : error) : option ResponseError :=
  match err with
  | ErrResponse r => Some r
  | Errorf _ inner => errors_As inner
  | OtherError _ | ErrDeploymentNotFound | AzureDeploymentError _ => None
  end.

(** The outcome of a call that returns [(T, error)] where the value is
    only meaningful when the error is [nil]. *)
Inductive result (A : Type) : Type :=
  | Ok (a : A)
  | Err (e : error).
Arguments Ok {A} a.
Arguments Err {A} e.

(** A Go map value keyed by strings: a [nil] map is distinguishable from
    an empty one made by [make]. *)
Inductive gomap (V : Type) : Type :=
  | nil_map
  | mk_map (m : gmap string V).
Arguments nil_map {V}.
Arguments mk_map {V} m.

(** A dynamically typed value ([interface{}]) as [encoding/json] decodes
    it: [nil], booleans, numbers (kept as their literal), strings,
    [[]interface{}] and [map[string]interface{}]. *)
Inductive any : Type :=
  | AnyNil
  | AnyBool (b : bool)
  | AnyNumber (literal : string)
  | AnyString (s : string)
  | AnySlice (l : list any)
  | AnyMap (m : gmap string any).

(** A call that either returns or panics at run time. *)
Inductive may_panic (A : Type) : Type :=
  | Returns (a : A)
  | Panics.
Arguments Returns {A} a.
Arguments Panics {A}.

Definition panic_bind {A B} (m : may_panic A) (k : A → may_panic B) : may_panic B :=
  match m with
  | Returns a => k a
  | Panics => Panics
  end.

(** The unchecked type assertions [v.(map[string]interface{})] and
    [v.(string)]. *)
Definition assert_map (v : any) : may_panic (gmap string any) :=
  match v with
  | AnyMap m => Returns m
  | _ => Panics
  end.

Definition assert_string (v : any) : may_panic string :=
  match v with
  | AnyString s => Returns s
  | _ => Panics
  end.

(** [m[key]] on a [map[string]interface{}]: the zero value [nil] when the
    key is absent. *)
Definition index (m : gmap string any) (key : string) : any :=
  default AnyNil (m !! key).

(** The line feed, written [\n] in a Go string literal. *)
Definition LF : string := String "010"%char "".

(** A computation that appends the external calls it makes to a log of
    type [list C]. *)
Definition Logged (C A : Type) : Type := list C → A * list C.

Definition ret {C A} (a : A) : Logged C A := λ log, (a, log).

Definition bind {C A B} (m : Logged C A) (k : A → Logged C B) : Logged C B :=
  λ log, let (a, log') := m log in k a log'.

(** [call c r]: perform external call [c], whose answer is [r]. *)
Definition call {C A} (c : C) (r : A) : Logged C A := λ log, (r, log ++ [c]).

End Go.

Import Go.

Notation "'let*' x ':=' m 'in' k" := (Go.bind m (λ x, k))
  (at level 10, x name, m at level 100, k at level 200, only parsing).

(* ===================================================================== *)
(** * pkg/azapi/deployments.go *)
(* ===================================================================== *)

Module Azapi.

(** ** SDK data (package [armresources]) *)

Record DeploymentExtended : Type := {
  de_ID : string;
  de_Name : string
}.

Record WhatIfOperationResult : Type := {
  wi_Status : string
}.

Record TemplateHashResult : Type := {
  th_MinifiedTemplate : string;
  th_TemplateHash : string
}.

(** [azure.RawArmTemplate] is raw JSON; [azure.ArmParameters] is a map
    keyed by parameter name. *)
Definition RawArmTemplate : Type := string.
Abbreviation ArmParameters := (gmap string string).

Inductive DeploymentMode : Type :=
  | DeploymentModeIncremental
  | DeploymentModeComplete.

Record DeploymentProperties : Type := {
  dp_Template : RawArmTemplate;
  dp_Parameters : ArmParameters;
  dp_Mode : option DeploymentMode
}.

Record Deployment : Type := {
  d_Properties : option DeploymentProperties;
  d_Location : option string;
  d_Tags : gmap string (option string)
}.

Record DeploymentWhatIfSettings : Type := {
  ws_ResultFormat : option string
}.

Record DeploymentWhatIfProperties : Type := {
  wp_Template : RawArmTemplate;
  wp_Parameters : ArmParameters;
  wp_Mode : option DeploymentMode;
  wp_WhatIfSettings : option DeploymentWhatIfSettings
}.

Record DeploymentWhatIf : Type := {
  w_Properties : option DeploymentWhatIfProperties;
  w_Location : option string
}.

(** One page of a list operation: [DeploymentListResult.Value]. *)
Record Page : Type := {
  Value : slice (option DeploymentExtended)
}.

(** A long-running-operation poller as returned by a [Begin*] call:
    its identity and what [PollUntilDone] will eventually answer. *)
Record Poller (T : Type) : Type := {
  poller_id : nat;
  outcome : result T
}.
Arguments poller_id {T} p.
Arguments outcome {T} p.

(** ** Requests sent to the SDK *)

Inductive SdkCall : Type :=
  | CallCalculateTemplateHash (template : RawArmTemplate)
  | CallNewListAtSubscriptionScopePager
  | CallNewListByResourceGroupPager (resourceGroupName : string)
  | CallNextPage
  | CallGetAtSubscriptionScope (deploymentName : string)
  | CallGet (resourceGroupName deploymentName : string)
  | CallBeginCreateOrUpdateAtSubscriptionScope (deploymentName : string) (d : Deployment)
  | CallBeginCreateOrUpdate (resourceGroup deploymentName : string) (d : Deployment)
  | CallBeginWhatIfAtSubscriptionScope (deploymentName : string) (w : DeploymentWhatIf)
  | CallBeginWhatIf (resourceGroup deploymentName : string) (w : DeploymentWhatIf)
  | CallBeginDeleteAtSubscriptionScope (deploymentName : string)
  | CallPollUntilDone (poller : nat).

(** Requests that change deployment state in the cloud. *)
Definition mutating (c : SdkCall) : bool :=
  match c with
  | CallBeginCreateOrUpdateAtSubscriptionScope _ _
  | CallBeginCreateOrUpdate _ _ _
  | CallBeginDeleteAtSubscriptionScope _ => true
  | _ => false
  end.

(** [*armresources.DeploymentsClient]: what the service answers.  A pager
    is the sequence of outcomes of its successive [NextPage] calls;
    [More()] holds while that sequence is not exhausted. *)
Record DeploymentsClient : Type := {
  CalculateTemplateHash_response : RawArmTemplate → result TemplateHashResult;
  NewListAtSubscriptionScopePager : list (result Page);
  NewListByResourceGroupPager : string → list (result Page);
  GetAtSubscriptionScope : string → result DeploymentExtended;
  Get : string → string → result DeploymentExtended;
  BeginCreateOrUpdateAtSubscriptionScope :
    string → Deployment → result (Poller DeploymentExtended);
  BeginCreateOrUpdate :
    string → string → Deployment → result (Poller DeploymentExtended);
  BeginWhatIfAtSubscriptionScope :
    string → DeploymentWhatIf → result (Poller WhatIfOperationResult);
  BeginWhatIf :
    string → string → DeploymentWhatIf → result (Poller WhatIfOperationResult);
  BeginDeleteAtSubscriptionScope : string → result (Poller unit)
}.

Definition SDK (A : Type) : Type := Logged SdkCall A.

(** [poller.PollUntilDone(ctx, nil)] *)
Definition PollUntilDone {T} (p : Poller T) : SDK (result T) :=
  call (CallPollUntilDone (poller_id p)) (outcome p).

(** [struct deployments] (line 77). *)
Record deployments : Type := {
  deploymentsClient : DeploymentsClient
}.

Definition NewDeployments (client : DeploymentsClient) : deployments :=
  {| deploymentsClient := client |}.

(** ** The wrapper *)

(** Lines 89-94. *)
Definition CalculateTemplateHash (ds : deployments) (template : RawArmTemplate)
  : SDK (result TemplateHashResult) :=
  call (CallCalculateTemplateHash template)
       (CalculateTemplateHash_response (deploymentsClient ds) template).

(** The loop [for pager.More() { page, err := pager.NextPage(ctx); ... }]
    of lines 103-112 and 140-149; [pager] holds the pages not yet fetched. *)
Fixpoint pagerLoop (pager : list (result Page))
    (results : slice (option DeploymentExtended))
  : SDK (slice (option DeploymentExtended) * option error) :=
  match pager with
  | [] => ret (results, None)
  | next :: pager' =>
      let* page := call CallNextPage next in
      match page with
      | Err err => ret (nil_slice, Some err)
      | Ok page => pagerLoop pager' (append results (Value page))
      end
  end.

(** Lines 96-113. *)
Definition ListSubscriptionDeployments (ds : deployments)
  : SDK (slice (option DeploymentExtended) * option error) :=
  let results := mk_slice [] in
  let* pager := call CallNewListAtSubscriptionScopePager
             (NewListAtSubscriptionScopePager (deploymentsClient ds)) in
  pagerLoop pager results.

(** Lines 115-130. *)
Definition GetSubscriptionDeployment (ds : deployments) (deploymentName : string)
  : SDK (option DeploymentExtended * option error) :=
  let* r := call (CallGetAtSubscriptionScope deploymentName)
          (GetAtSubscriptionScope (deploymentsClient ds) deploymentName) in
  match r with
  | Err err =>
      match errors_As err with
      | Some errDetails =>
          if (StatusCode errDetails =? 404)%Z
          then ret (None, Some ErrDeploymentNotFound)
          else ret (None, Some (Errorf "getting deployment from subscription: " err))
      | None => ret (None, Some (Errorf "getting deployment from subscription: " err))
      end
  | Ok deployment => ret (Some deployment, None)
  end.

(** Lines 132-150. *)
Definition ListResourceGroupDeployments (ds : deployments) (resourceGroupName : string)
  : SDK (slice (option DeploymentExtended) * option error) :=
  let results := mk_slice [] in
  let* pager := call (CallNewListByResourceGroupPager resourceGroupName)
             (NewListByResourceGroupPager (deploymentsClient ds) resourceGroupName) in
  pagerLoop pager results.

(** Lines 152-168. *)
Definition GetResourceGroupDeployment (ds : deployments)
    (resourceGroupName deploymentName : string)
  : SDK (option DeploymentExtended * option error) :=
  let* r := call (CallGet resourceGroupName deploymentName)
          (Get (deploymentsClient ds) resourceGroupName deploymentName) in
  match r with
  | Err err =>
      match errors_As err with
      | Some errDetails =>
          if (StatusCode errDetails =? 404)%Z
          then ret (None, Some ErrDeploymentNotFound)
          else ret (None, Some (Errorf "getting deployment from resource group: " err))
      | None => ret (None, Some (Errorf "getting deployment from resource group: " err))
      end
  | Ok deployment => ret (Some deployment, None)
  end.

(** Lines 429-444: attempts to create an Azure deployment error from the
    HTTP response error. *)
Definition createDeploymentError (err : error) : error :=
  match errors_As err with
  | Some responseErr =>
      let errorText :=
        match RawBody responseErr with
        | None => ErrorText responseErr
        | Some rawBody => rawBody
        end in
      AzureDeploymentError errorText
  | None => err
  end.

(** Lines 170-204. *)
Definition DeployToSubscription (ds : deployments)
    (location deploymentName : string) (armTemplate : RawArmTemplate)
    (parameters : ArmParameters) (tags : gmap string (option string))
  : SDK (option DeploymentExtended * option error) :=
  let request :=
    {| d_Properties := Some {| dp_Template := armTemplate;
                               dp_Parameters := parameters;
                               dp_Mode := Some DeploymentModeIncremental |};
       d_Location := Some location;
       d_Tags := tags |} in
  let* r := call (CallBeginCreateOrUpdateAtSubscriptionScope deploymentName request)
          (BeginCreateOrUpdateAtSubscriptionScope (deploymentsClient ds)
             deploymentName request) in
  match r with
  | Err err => ret (None, Some (Errorf "starting deployment to subscription: " err))
  | Ok createFromTemplateOperation =>
      let* r := PollUntilDone createFromTemplateOperation in
      match r with
      | Err err =>
          let deploymentError := createDeploymentError err in
          ret (None, Some (Errorf
            ("deploying to subscription:" +:+ LF +:+ LF +:+ "Deployment Error Details:" +:+ LF)
            deploymentError))
      | Ok deployResult => ret (Some deployResult, None)
      end
  end.

(** Lines 206-238. *)
Definition DeployToResourceGroup (ds : deployments)
    (resourceGroup deploymentName : string) (armTemplate : RawArmTemplate)
    (parameters : ArmParameters) (tags : gmap string (option string))
  : SDK (option DeploymentExtended * option error) :=
  let request :=
    {| d_Properties := Some {| dp_Template := armTemplate;
                               dp_Parameters := parameters;
                               dp_Mode := Some DeploymentModeIncremental |};
       d_Location := None;
       d_Tags := tags |} in
  let* r := call (CallBeginCreateOrUpdate resourceGroup deploymentName request)
          (BeginCreateOrUpdate (deploymentsClient ds)
             resourceGroup deploymentName request) in
  match r with
  | Err err => ret (None, Some (Errorf "starting deployment to resource group: " err))
  | Ok createFromTemplateOperation =>
      let* r := PollUntilDone createFromTemplateOperation in
      match r with
      | Err err =>
          let deploymentError := createDeploymentError err in
          ret (None, Some (Errorf
            ("deploying to resource group:" +:+ LF +:+ LF +:+ "Deployment Error Details:" +:+ LF)
            deploymentError))
      | Ok deployResult => ret (Some deployResult, None)
      end
  end.

(** Lines 240-273. *)
Definition WhatIfDeployToSubscription (ds : deployments)
    (location deploymentName : string) (armTemplate : RawArmTemplate)
    (parameters : ArmParameters)
  : SDK (option WhatIfOperationResult * option error) :=
  let request :=
    {| w_Properties := Some {| wp_Template := armTemplate;
                               wp_Parameters := parameters;
                               wp_Mode := Some DeploymentModeIncremental;
                               wp_WhatIfSettings :=
                                 Some {| ws_ResultFormat := None |} |};
       w_Location := Some location |} in
  let* r := call (CallBeginWhatIfAtSubscriptionScope deploymentName request)
          (BeginWhatIfAtSubscriptionScope (deploymentsClient ds)
             deploymentName request) in
  match r with
  | Err err => ret (None, Some (Errorf "starting deployment to subscription: " err))
  | Ok createFromTemplateOperation =>
      let* r := PollUntilDone createFromTemplateOperation in
      match r with
      | Err err =>
          let deploymentError := createDeploymentError err in
          ret (None, Some (Errorf
            ("deploying to subscription:" +:+ LF +:+ LF +:+ "Deployment Error Details:" +:+ LF)
            deploymentError))
      | Ok deployResult => ret (Some deployResult, None)
      end
  end.

(** Lines 275-305. *)
Definition WhatIfDeployToResourceGroup (ds : deployments)
    (resourceGroup deploymentName : string) (armTemplate : RawArmTemplate)
    (parameters : ArmParameters)
  : SDK (option WhatIfOperationResult * option error) :=
  let request :=
    {| w_Properties := Some {| wp_Template := armTemplate;
                               wp_Parameters := parameters;
                               wp_Mode := Some DeploymentModeIncremental;
                               wp_WhatIfSettings := None |};
       w_Location := None |} in
  let* r := call (CallBeginWhatIf resourceGroup deploymentName request)
          (BeginWhatIf (deploymentsClient ds)
             resourceGroup deploymentName request) in
  match r with
  | Err err => ret (None, Some (Errorf "starting deployment to resource group: " err))
  | Ok createFromTemplateOperation =>
      let* r := PollUntilDone createFromTemplateOperation in
      match r with
      | Err err =>
          let deploymentError := createDeploymentError err in
          ret (None, Some (Errorf
            ("deploying to resource group:" +:+ LF +:+ LF +:+ "Deployment Error Details:" +:+ LF)
            deploymentError))
      | Ok deployResult => ret (Some deployResult, None)
      end
  end.

(** Lines 307-323. *)
Definition DeleteSubscriptionDeployment (ds : deployments) (deploymentName : string)
  : SDK (option error) :=
  let* r := call (CallBeginDeleteAtSubscriptionScope deploymentName)
          (BeginDeleteAtSubscriptionScope (deploymentsClient ds) deploymentName) in
  match r with
  | Err err => ret (Some (Errorf "starting to delete deployment: " err))
  | Ok deleteDeploymentOperation =>
      let* r := PollUntilDone deleteDeploymentOperation in
      match r with
      | Err err => ret (Some (Errorf "deleting deployment operation: " err))
      | Ok _ => ret None
      end
  end.

(** Lines 367-370. *)
Record AzCliDeploymentOutput : Type := {
  Type_ : string;
  Value_ : any
}.

(** The body of the [range] loop of lines 419-425: one entry of the raw
    outputs is converted and stored in [result]. *)
Definition convertOutput (key : string) (output : any)
    (acc : may_panic (gmap string AzCliDeploymentOutput))
  : may_panic (gmap string AzCliDeploymentOutput) :=
  panic_bind acc (λ result,
  panic_bind (assert_map output) (λ innerValue,
  panic_bind (assert_string (index innerValue "type")) (λ ty,
  Returns (<[key := {| Type_ := ty; Value_ := index innerValue "value" |}]> result)))).

(** Lines 412-427. *)
Definition CreateDeploymentOutput (rawOutputs : any)
  : may_panic (gomap AzCliDeploymentOutput) :=
  match rawOutputs with
  | AnyNil => Returns (mk_map ∅)
  | _ =>
      panic_bind (assert_map rawOutputs) (λ castInput,
      panic_bind (map_fold convertOutput (Returns ∅) castInput) (λ result,
      Returns (mk_map result)))
  end.

End Azapi.

(* ===================================================================== *)
(** * pkg/tools/kubectl/kubectl.go *)
(* ===================================================================== *)

Module Kubectl.

(** ** The process runner (package [exec]) *)

Record RunResult : Type := {
  ExitCode : Z;
  Stdout : string;
  Stderr : string
}.

(** Modelled from the spec: [exec.RunArgs], the description of one process
    to run, is declared outside the three files; the wrapper only uses its
    builder methods, each of which sets one field ([AppendParams] extends
    the argument list).  [Cwd = ""], [Env = nil] and [StdIn = None] mean
    "not set". *)
Record RunArgs : Type := {
  Cmd : string;
  Args : list string;
  Cwd : string;
  Env : slice string;
  EnrichError : bool;
  StdIn : option string
}.

Definition NewRunArgs (cmd : string) (args : list string) : RunArgs :=
  {| Cmd := cmd; Args := args; Cwd := ""; Env := nil_slice;
     EnrichError := false; StdIn := None |}.

Definition AppendParams (b : RunArgs) (params : list string) : RunArgs :=
  {| Cmd := Cmd b; Args := Args b ++ params; Cwd := Cwd b; Env := Env b;
     EnrichError := EnrichError b; StdIn := StdIn b |}.

Definition WithCwd (b : RunArgs) (cwd : string) : RunArgs :=
  {| Cmd := Cmd b; Args := Args b; Cwd := cwd; Env := Env b;
     EnrichError := EnrichError b; StdIn := StdIn b |}.

Definition WithEnv (b : RunArgs) (env : slice string) : RunArgs :=
  {| Cmd := Cmd b; Args := Args b; Cwd := Cwd b; Env := env;
     EnrichError := EnrichError b; StdIn := StdIn b |}.

Definition WithEnrichError (b : RunArgs) (enrichError : bool) : RunArgs :=
  {| Cmd := Cmd b; Args := Args b; Cwd := Cwd b; Env := Env b;
     EnrichError := enrichError; StdIn := StdIn b |}.

Definition WithStdIn (b : RunArgs) (stdIn : string) : RunArgs :=
  {| Cmd := Cmd b; Args := Args b; Cwd := Cwd b; Env := Env b;
     EnrichError := EnrichError b; StdIn := Some stdIn |}.

(** ** What the wrapper finds around it *)

(** The operating system and the two library functions the file calls:
    [os.Getenv], [filepath.Join], [envsubst.Eval] (template text and a
    lookup function) and the package's own [getKubeConfigDir], which is
    declared in another file. *)
Class Platform : Type := {
  os_Getenv : string → string;
  filepath_Join : string → string → string;
  envsubst_Eval : string → (string → string) → result string;
  getKubeConfigDir : result string
}.

(** What [os.ReadDir] and [os.ReadFile] find below a path.  A directory
    listing is an error or the entries in the order [os.ReadDir] returns
    them; an entry has a name and is either a directory ([IsDir()] holds),
    with the listing [os.ReadDir] gives for it, or anything else, with the
    outcome of [os.ReadFile] on it. *)
Inductive ReadDir : Type :=
  | ReadDirErr (err : error)
  | ReadDirOk (entries : DirEntries)
with DirEntries : Type :=
  | entries_nil
  | entries_cons (name : string) (node : Node) (rest : DirEntries)
with Node : Type :=
  | IsFile (ReadFile : result string)
  | IsDir (listing : ReadDir).

(** Induction over a directory tree. *)
Scheme ReadDir_mut := Induction for ReadDir Sort Prop
  with DirEntries_mut := Induction for DirEntries Sort Prop
  with Node_mut := Induction for Node Sort Prop.

(** [filepath.Ext]: the suffix beginning at the final dot in the final
    slash-separated element of the path, empty if there is no dot. *)
Fixpoint has_separator (path : string) : bool :=
  match path with
  | "" => false
  | String c rest => bool_decide (c = "/"%char) || has_separator rest
  end.

Fixpoint filepath_Ext (path : string) : string :=
  match path with
  | "" => ""
  | String c rest =>
      match filepath_Ext rest with
      | "" =>
          if bool_decide (c = "."%char) && negb (has_separator rest)
          then path else ""
      | ext => ext
      end
  end.

(** ** The client *)

(** K8s CLI flags (lines 63-70). *)
Record KubeCliFlags : Type := {
  Namespace : string;
  DryRun : string;
  Output : string
}.

(** [struct kubectlCli] (lines 72-77).  The command runner answers a
    command depending on the commands run before it. *)
Record kubectlCli : Type := {
  commandRunner : list RunArgs → RunArgs → result RunResult;
  env : gmap string string;
  cwd : string
}.

(** Methods of the client are computations that log the commands they
    hand to [commandRunner.Run]. *)
Definition Cli (A : Type) : Type := Logged RunArgs A.

Definition Run (cli : kubectlCli) (args : RunArgs) : Cli (result RunResult) :=
  λ log, (commandRunner cli log args, log ++ [args]).

(** Lines 80-84. *)
Definition NewKubectl (runner : list RunArgs → RunArgs → result RunResult)
  : kubectlCli :=
  {| commandRunner := runner; env := ∅; cwd := "" |}.




(** Lines 102-104: [cli.env = envValues]. *)
Definition SetEnv (cli : kubectlCli) (envValues : gmap string string)
  : Cli kubectlCli :=
  ret {| commandRunner := commandRunner cli; env := envValues; cwd := cwd cli |}.

(** Lines 107-109: [cli.cwd = cwd]. *)
Definition Cwd_ (cli : kubectlCli) (cwd' : string) : Cli kubectlCli :=
  ret {| commandRunner := commandRunner cli; env := env cli; cwd := cwd' |}.

(** Lines 312-319. *)
Definition environ (values : gmap string string) : slice string :=
  mk_slice (foldl (λ env kv, env ++ [kv.1 +:+ "=" +:+ kv.2]) []
                  (map_to_list values)).

(** Lines 287-310. *)
Definition executeCommandWithArgs (cli : kubectlCli) (args : RunArgs)
    (flags : option KubeCliFlags) : Cli (result RunResult) :=
  let args := WithEnrichError args true in
  let args := if bool_decide (cwd cli ≠ "") then WithCwd args (cwd cli) else args in
  let args :=
    match flags with
    | Some flags =>
        let args :=
          if bool_decide (DryRun flags ≠ "")
          then AppendParams args ["--dry-run=" +:+ DryRun flags] else args in
        let args :=
          if bool_decide (Namespace flags ≠ "")
          then AppendParams args ["-n"; Namespace flags] else args in
        let args :=
          if bool_decide (Output flags ≠ "")
          then AppendParams args ["-o"; Output flags] else args in
        args
    | None => args
    end in
  Run cli args.

(** Lines 223-229. *)
Definition Exec (cli : kubectlCli) (flags : option KubeCliFlags)
    (args : list string) : Cli (result RunResult) :=
  let runArgs := AppendParams (NewRunArgs "kubectl" []) args in
  executeCommandWithArgs cli runArgs flags.

(** The common ending [if err != nil { return nil, fmt.Errorf(msg, err) };
    return &res, nil] of the public operations. *)
Definition wrapResult (msg : string) (r : result RunResult)
  : option RunResult * option error :=
  match r with
  | Err err => (None, Some (Errorf msg err))
  | Ok res => (Some res, None)
  end.

(** Lines 112-119. *)
Definition ConfigUseContext (cli : kubectlCli) (name : string)
    (flags : option KubeCliFlags) : Cli (option RunResult * option error) :=
  let* r := Exec cli flags ["config"; "use-context"; name] in
  ret (wrapResult "failed setting kubectl context: " r).

(** Lines 122-151. *)
Definition ConfigView `{Platform} (cli : kubectlCli) (merge flatten : bool)
    (flags : option KubeCliFlags) : Cli (option RunResult * option error) :=
  match getKubeConfigDir with
  | Err err => ret (None, Some err)
  | Ok kubeConfigDir =>
      let args := ["config"; "view"] in
      let args := if merge then args ++ ["--merge"] else args in
      let args := if flatten then args ++ ["--flatten"] else args in
      let runArgs :=
        WithEnv (WithCwd (NewRunArgs "kubectl" args) kubeConfigDir)
                (environ (env cli)) in
      let* r := executeCommandWithArgs cli runArgs flags in
      ret (wrapResult "kubectl config view: " r)
  end.

(** Lines 153-165. *)
Definition ApplyWithInput (cli : kubectlCli) (input : string)
    (flags : option KubeCliFlags) : Cli (option RunResult * option error) :=
  let runArgs :=
    WithStdIn (WithEnv (NewRunArgs "kubectl" ["apply"; "-f"; "-"])
                       (environ (env cli)))
              input in
  let* r := executeCommandWithArgs cli runArgs flags in
  ret (wrapResult "kubectl apply -f: " r).

(** Lines 177-194. *)
Definition CreateSecretGenericFromLiterals (cli : kubectlCli) (name : string)
    (secrets : list string) (flags : option KubeCliFlags)
  : Cli (option RunResult * option error) :=
  let args := ["create"; "secret"; "generic"; name] in
  let args :=
    foldl (λ args secret, args ++ ["--from-literal=" +:+ secret]) args secrets in
  let* r := Exec cli flags args in
  ret (wrapResult "kubectl create secret generic --from-literal: " r).

(** Lines 197-206. *)
Definition CreateNamespace (cli : kubectlCli) (name : string)
    (flags : option KubeCliFlags) : Cli (option RunResult * option error) :=
  let args := ["create"; "namespace"; name] in
  let* r := Exec cli flags args in
  ret (wrapResult "kubectl create namespace: " r).

(** Lines 209-220. *)
Definition RolloutStatus (cli : kubectlCli) (deploymentName : string)
    (flags : option KubeCliFlags) : Cli (option RunResult * option error) :=
  let* r := Exec cli flags ["rollout"; "status"; "deployment/" +:+ deploymentName] in
  ret (wrapResult "deployment rollout failed, " r).

(** The lookup function handed to [envsubst.Eval] (lines 238-243). *)
Definition lookupEnv `{Platform} (cli : kubectlCli) (name : string) : string :=
  match env cli !! name with
  | Some val => val
  | None => os_Getenv name
  end.

(** Lines 231-255; [fileRead] is what [os.ReadFile(filePath)] answers. *)
Definition applyTemplate `{Platform} (cli : kubectlCli) (filePath : string)
    (fileRead : result string) (flags : option KubeCliFlags)
  : Cli (option error) :=
  match fileRead with
  | Err err =>
      ret (Some (Errorf ("failed reading manifest file '" +:+ filePath +:+ "', ") err))
  | Ok yaml =>
      match envsubst_Eval yaml (lookupEnv cli) with
      | Err err => ret (Some (Errorf "failed replacing env vars, " err))
      | Ok replaced =>
          let* r := ApplyWithInput cli replaced flags in
          match r.2 with
          | Some err =>
              ret (Some (Errorf ("failed applying file '" +:+ filePath +:+ "', ") err))
          | None => ret None
          end
      end
  end.

(** Lines 257-285; [listing] is what [os.ReadDir(directoryPath)] answers.
    [applyTemplates_range] is the [for _, entry := range entries] loop. *)
Fixpoint applyTemplates `{Platform} (cli : kubectlCli) (directoryPath : string)
    (listing : ReadDir) (flags : option KubeCliFlags) {struct listing}
  : Cli (option error) :=
  match listing with
  | ReadDirErr err =>
      ret (Some (Errorf
        ("failed reading files in path, '" +:+ directoryPath +:+ "', ") err))
  | ReadDirOk entries => applyTemplates_range cli directoryPath entries flags
  end
with applyTemplates_range `{Platform} (cli : kubectlCli) (directoryPath : string)
    (entries : DirEntries) (flags : option KubeCliFlags) {struct entries}
  : Cli (option error) :=
  match entries with
  | entries_nil => ret None
  | entries_cons name node rest =>
      let entryPath := filepath_Join directoryPath name in
      match node with
      | IsDir sub =>
          let* r := applyTemplates cli entryPath sub flags in
          match r with
          | Some err =>
              ret (Some (Errorf
                ("failed applying templates at '" +:+ entryPath +:+ "', ") err))
          | None => applyTemplates_range cli directoryPath rest flags
          end
      | IsFile fileRead =>
          let ext := filepath_Ext name in
          if negb (bool_decide (ext = ".yaml") || bool_decide (ext = ".yml"))
          then applyTemplates_range cli directoryPath rest flags
          else
            let* r := applyTemplate cli entryPath fileRead flags in
            match r with
            | Some err =>
                ret (Some (Errorf
                  ("failed applying template '" +:+ entryPath +:+ "', ") err))
            | None => applyTemplates_range cli directoryPath rest flags
            end
      end
  end.

(** Lines 168-174. *)
Definition Apply `{Platform} (cli : kubectlCli) (path : string)
    (listing : ReadDir) (flags : option KubeCliFlags) : Cli (option error) :=
  let* r := applyTemplates cli path listing flags in
  match r with
  | Some err => ret (Some (Errorf "failed process templates, " err))
  | None => ret None
  end.

End Kubectl.

(* ===================================================================== *)
(** * test/mocks: the mock context *)
(* ===================================================================== *)

Module Mocks.

(** Objects live in a store and are referred to by address, so that two
    fields holding the same pointer are seen to do so. *)
Definition addr : Type := nat.

(** [policy.ClientOptions] ([azcore.ClientOptions] is an alias of it) and
    [arm.ClientOptions], which embeds one; only [Transport] is set here. *)
Record ClientOptions : Type := {
  Transport : option addr
}.

Record ArmClientOptions : Type := {
  arm_ClientOptions : ClientOptions
}.

(** [struct MockContext] (lines 21-35). *)
Record MockContext : Type := {
  Credentials : addr;
  Context : addr;
  Console : addr;
  HttpClient : addr;
  CoreClientOptions : addr;
  ArmClientOptions_ : addr;
  CommandRunner : addr;
  ConfigManager : addr;
  Container : addr;
  AlphaFeaturesManager : addr;
  SubscriptionCredentialProvider : addr;
  MultiTenantCredentialProvider : addr;
  Config : addr
}.

(** A resolver registered by [registerCommonMocks]: a closure over the
    pointer [mockContext] that returns one of its fields when invoked. *)
Record Resolver : Type := {
  captured : addr;
  field : MockContext → addr
}.

Inductive object : Type :=
  | MockHttpClient
  | MockConfigManager
  | EmptyConfig
  | MockCredentials
  | ContextCell (ctx : string)
  | MockConsole
  | MockCommandRunner
  | MockSubscriptionCredentialProvider
  | MockMultiTenantCredentialProvider
  | FeatureManager (config : addr)
  | ClientOptionsObj (o : ClientOptions)
  | ArmClientOptionsObj (o : ArmClientOptions)
  | NestedContainer (parent : option addr) (registry : gmap string Resolver)
  | MockContextObj (mc : MockContext).

Record heap : Type := {
  next : addr;
  store : gmap nat object
}.

(** Computations on the store; dereferencing a pointer that does not hold
    the expected object panics. *)
Definition Heap (A : Type) : Type := heap → may_panic (A * heap).

Definition hret {A} (a : A) : Heap A := λ h, Returns (a, h).

Definition hbind {A B} (m : Heap A) (k : A → Heap B) : Heap B :=
  λ h, match m h with
       | Returns (a, h') => k a h'
       | Panics => Panics
       end.

Notation "'let!' x ':=' m 'in' k" := (hbind m (λ x, k))
  (at level 10, x name, m at level 100, k at level 200, only parsing).

(** Allocation of a new object: [&T{...}] or a [New...] constructor. *)
Definition new (o : object) : Heap addr :=
  λ h, Returns (next h, {| next := S (next h); store := <[next h := o]> (store h) |}).

Definition loadMockContext (p : addr) : Heap MockContext :=
  λ h, match store h !! p with
       | Some (MockContextObj mc) => Returns (mc, h)
       | _ => Panics
       end.

(** Modelled from the spec: the dependency-injection container
    ([ioc.NestedContainer]) is declared outside the three files.  It is a
    registry of resolvers keyed by the type the resolver returns;
    registering under a type replaces the binding of that type, and
    resolving a type invokes the resolver bound to it, looking in the
    parent container when the type is not bound. *)
Definition NewNestedContainer (parent : option addr) : Heap addr :=
  new (NestedContainer parent ∅).

Definition MustRegisterSingleton (c : addr) (type : string) (r : Resolver)
  : Heap unit :=
  λ h, match store h !! c with
       | Some (NestedContainer parent registry) =>
           Returns (tt, {| next := next h;
                           store := <[c := NestedContainer parent
                                             (<[type := r]> registry)]> (store h) |})
       | _ => Panics
       end.

Definition invoke (h : heap) (r : Resolver) : option addr :=
  match store h !! captured r with
  | Some (MockContextObj mc) => Some (field r mc)
  | _ => None
  end.

Definition Resolve (h : heap) (c : addr) (type : string) : option addr :=
  match store h !! c with
  | Some (NestedContainer parent registry) =>
      match registry !! type with
      | Some r => invoke h r
      | None =>
          match parent with
          | Some p =>
              match store h !! p with
              | Some (NestedContainer _ registry') =>
                  r ← registry' !! type; invoke h r
              | _ => None
              end
          | None => None
          end
      end
  | _ => None
  end.

(** One statement of [registerCommonMocks]:
    [mockContext.Container.MustRegisterSingleton(func() T { return mockContext.F })]. *)
Definition registerField (mockContext : addr) (type : string)
    (f : MockContext → addr) : Heap unit :=
  let! mc := loadMockContext mockContext in
  MustRegisterSingleton (Container mc) type {| captured := mockContext; field := f |}.

(** Lines 72-100. *)
Definition registerCommonMocks (mockContext : addr) : Heap unit :=
  let! _ := registerField mockContext "ioc.ServiceLocator" Container in
  let! _ := registerField mockContext "azcore.TokenCredential" Credentials in
  let! _ := registerField mockContext "httputil.HttpClient" HttpClient in
  let! _ := registerField mockContext "exec.CommandRunner" CommandRunner in
  let! _ := registerField mockContext "input.Console" Console in
  let! _ := registerField mockContext "config.FileConfigManager" ConfigManager in
  let! _ := registerField mockContext "*alpha.FeatureManager" AlphaFeaturesManager in
  let! _ := registerField mockContext "*policy.ClientOptions" CoreClientOptions in
  registerField mockContext "*arm.ClientOptions" ArmClientOptions_.

(** Lines 37-70. *)
Definition NewMockContext (ctx : string) : Heap addr :=
  let! httpClient := new MockHttpClient in
  let! configManager := new MockConfigManager in
  let! config := new EmptyConfig in
  let! coreClientOptions :=
    new (ClientOptionsObj {| Transport := Some httpClient |}) in
  let! armClientOptions :=
    new (ArmClientOptionsObj
           {| arm_ClientOptions := {| Transport := Some httpClient |} |}) in
  let! credentials := new MockCredentials in
  let! context := new (ContextCell ctx) in
  let! console := new MockConsole in
  let! commandRunner := new MockCommandRunner in
  let! subscriptionCredentialProvider := new MockSubscriptionCredentialProvider in
  let! multiTenantCredentialProvider := new MockMultiTenantCredentialProvider in
  let! container := NewNestedContainer None in
  let! alphaFeaturesManager := new (FeatureManager config) in
  let! mockContext :=
    new (MockContextObj
           {| Credentials := credentials;
              Context := context;
              Console := console;
              CommandRunner := commandRunner;
              HttpClient := httpClient;
              CoreClientOptions := coreClientOptions;
              ArmClientOptions_ := armClientOptions;
              ConfigManager := configManager;
              SubscriptionCredentialProvider := subscriptionCredentialProvider;
              MultiTenantCredentialProvider := multiTenantCredentialProvider;
              Container := container;
              Config := config;
              AlphaFeaturesManager := alphaFeaturesManager |}) in
  let! _ := registerCommonMocks mockContext in
  hret mockContext.

End Mocks.

(* ===================================================================== *)
(** * Specification vocabulary for the deployment wrapper *)
(* ===================================================================== *)

Module AzapiSpec.
Import Azapi.

(** The values of a sequence of pages, in page order. *)
Definition allValues (pages : list Page) : list (option DeploymentExtended) :=
  concat ((λ page, elems (Value page)) <$> pages).

(** A function from the error the SDK reports to the error an operation
    returns only re-wraps when it is the identity or prefixes one fixed
    context message, whatever the error is. *)
Definition rewraps_only (returned : error → option error) : Prop :=
  (∀ e, returned e = Some e) ∨ (∃ msg, ∀ e, returned e = Some (Errorf msg e)).

(** The error carries a response error with status 404. *)
Definition notFound (err : error) : Prop :=
  ∃ r, errors_As err = Some r ∧ StatusCode r = 404%Z.

(** What a get operation returns for the [response] of the SDK. *)
Definition get_behaviour (response : result DeploymentExtended) (msg : string)
    (out : option DeploymentExtended * option error) : Prop :=
  (∀ err, response = Err err → notFound err →
          out = (None, Some ErrDeploymentNotFound)) ∧
  (∀ err, response = Err err → ¬ notFound err →
          out = (None, Some (Errorf msg err))) ∧
  (∀ d, response = Ok d → out = (Some d, None)).

(** What a long-running operation does with the answers of [begin] and of
    the poller: [out] is the pair of its return value and the call log
    after it ran from [log]. *)
Definition lro_behaviour {T R : Type} (begin : result (Poller T))
    (beginCall : SdkCall) (startMsg pollMsg : string)
    (pollError : error → error) (success : T → R) (failure : error → R)
    (log : list SdkCall) (out : R * list SdkCall) : Prop :=
  (∀ e, begin = Err e →
        out = (failure (Errorf startMsg e), log ++ [beginCall])) ∧
  (∀ p v, begin = Ok p → outcome p = Ok v →
        out = (success v, log ++ [beginCall; CallPollUntilDone (poller_id p)])) ∧
  (∀ p e, begin = Ok p → outcome p = Err e →
        out = (failure (Errorf pollMsg (pollError e)),
               log ++ [beginCall; CallPollUntilDone (poller_id p)])).

(** The return values of the long-running operations. *)
Definition deploySuccess (v : DeploymentExtended)
  : option DeploymentExtended * option error := (Some v, None).
Definition deployFailure (e : error)
  : option DeploymentExtended * option error := (None, Some e).
Definition whatIfSuccess (v : WhatIfOperationResult)
  : option WhatIfOperationResult * option error := (Some v, None).
Definition whatIfFailure (e : error)
  : option WhatIfOperationResult * option error := (None, Some e).
Definition deleteSuccess (_ : unit) : option error := None.
Definition deleteFailure (e : error) : option error := Some e.

(** A long-running operation fails exactly when its [begin] call or the
    poll fails; [errorOf] reads the error out of a return value. *)
Definition fails_exactly_when_sdk_fails {T R : Type}
    (begin : result (Poller T)) (errorOf : R → option error) (out : R) : Prop :=
  (errorOf out = None ↔ ∃ p v, begin = Ok p ∧ outcome p = Ok v) ∧
  (is_Some (errorOf out) ↔
     (∃ e, begin = Err e) ∨ (∃ p e, begin = Ok p ∧ outcome p = Err e)).

(** The requests built by the deploy and what-if operations. *)
Definition deploymentRequest (location : option string)
    (armTemplate : RawArmTemplate) (parameters : ArmParameters)
    (tags : gmap string (option string)) : Deployment :=
  {| d_Properties := Some {| dp_Template := armTemplate;
                             dp_Parameters := parameters;
                             dp_Mode := Some DeploymentModeIncremental |};
     d_Location := location;
     d_Tags := tags |}.

Definition whatIfRequest (location : option string)
    (settings : option DeploymentWhatIfSettings)
    (armTemplate : RawArmTemplate) (parameters : ArmParameters)
  : DeploymentWhatIf :=
  {| w_Properties := Some {| wp_Template := armTemplate;
                             wp_Parameters := parameters;
                             wp_Mode := Some DeploymentModeIncremental;
                             wp_WhatIfSettings := settings |};
     w_Location := location |}.

(** The effect of a sequence of requests on some state of the cloud. *)
Definition replay {Store : Type} (effect : SdkCall → Store → Store)
    (calls : list SdkCall) (s : Store) : Store :=
  foldl (λ s c, effect c s) s calls.

(** An operation sends [beginCall], which does not mutate, followed by at
    most one poll, and nothing else; replaying its requests leaves any
    state that only mutating requests change as it was. *)
Definition only_request (beginCall : SdkCall) (log log' : list SdkCall) : Prop :=
  ∃ polls,
    log' = log ++ beginCall :: polls ∧
    (polls = [] ∨ ∃ id, polls = [CallPollUntilDone id]) ∧
    forallb (λ c, negb (mutating c)) (beginCall :: polls) = true ∧
    ∀ (Store : Type) (effect : SdkCall → Store → Store) (s : Store),
      (∀ c s', mutating c = false → effect c s' = s') →
      replay effect (beginCall :: polls) s = s.

(** The output an entry of the raw outputs converts to: defined exactly
    for a map with a string under ["type"]. *)
Definition outputOf (v : any) : option AzCliDeploymentOutput :=
  match v with
  | AnyMap inner =>
      match inner !! "type" with
      | Some (AnyString ty) =>
          Some {| Type_ := ty; Value_ := default AnyNil (inner !! "value") |}
      | _ => None
      end
  | _ => None
  end.

(** An entry of the raw outputs has the expected shape: a map holding a
    string under ["type"]. *)
Definition wellShaped (v : any) : Prop :=
  ∃ inner ty, v = AnyMap inner ∧ inner !! "type" = Some (AnyString ty).

(** ** Sample SDK behaviours *)

Definition sampleDeployment : DeploymentExtended :=
  {| de_ID := "/subscriptions/s/providers/Microsoft.Resources/deployments/d";
     de_Name := "d" |}.

Definition response (status : Z) : ResponseError :=
  {| StatusCode := status; ErrorCode := "Code";
     RawBody := Some "{}"; ErrorText := "response error" |}.

(** A service whose every call fails with [e]. *)
Definition failingClient (e : error) : DeploymentsClient :=
  {| CalculateTemplateHash_response := λ _, Err e;
     NewListAtSubscriptionScopePager := [Err e];
     NewListByResourceGroupPager := λ _, [Err e];
     GetAtSubscriptionScope := λ _, Err e;
     Get := λ _ _, Err e;
     BeginCreateOrUpdateAtSubscriptionScope := λ _ _, Err e;
     BeginCreateOrUpdate := λ _ _ _, Err e;
     BeginWhatIfAtSubscriptionScope := λ _ _, Err e;
     BeginWhatIf := λ _ _ _, Err e;
     BeginDeleteAtSubscriptionScope := λ _, Err e |}.

(** A service that lists [pager], finds [sampleDeployment] and starts
    every long-running operation, the poll of which answers [polled]
    (the deployment and what-if results being samples). *)
Definition pollingClient (pager : list (result Page)) (polled : option error)
  : DeploymentsClient :=
  let answer {T} (v : T) : result T :=
    match polled with Some e => Err e | None => Ok v end in
  {| CalculateTemplateHash_response := λ t,
       Ok {| th_MinifiedTemplate := t; th_TemplateHash := "0" |};
     NewListAtSubscriptionScopePager := pager;
     NewListByResourceGroupPager := λ _, pager;
     GetAtSubscriptionScope := λ _, Ok sampleDeployment;
     Get := λ _ _, Ok sampleDeployment;
     BeginCreateOrUpdateAtSubscriptionScope := λ _ _,
       Ok {| poller_id := 1; outcome := answer sampleDeployment |};
     BeginCreateOrUpdate := λ _ _ _,
       Ok {| poller_id := 2; outcome := answer sampleDeployment |};
     BeginWhatIfAtSubscriptionScope := λ _ _,
       Ok {| poller_id := 3; outcome := answer {| wi_Status := "Succeeded" |} |};
     BeginWhatIf := λ _ _ _,
       Ok {| poller_id := 4; outcome := answer {| wi_Status := "Succeeded" |} |};
     BeginDeleteAtSubscriptionScope := λ _,
       Ok {| poller_id := 5; outcome := answer () |} |}.

(** ** Further vocabulary *)

(** The operation sent exactly [calls], none of which mutates. *)
Definition sends_read_only (calls : list SdkCall) (log log' : list SdkCall)
  : Prop :=
  log' = log ++ calls ∧ Forall (λ c, mutating c = false) calls.

(** What [errors.As] finds in a returned error. *)
Definition exposes (returned : option error) (r : option ResponseError) : Prop :=
  ∃ e, returned = Some e ∧ errors_As e = r.

(** How visible a response error of the SDK stays in what a long-running
    operation returns: after a failed [begin] it is found as before;
    after a failed poll it is found or not according to [afterPoll]. *)
Definition error_visibility {T R : Type} (begin : result (Poller T))
    (errorOf : R → option error)
    (afterPoll : error → option ResponseError) (out : R) : Prop :=
  (∀ e, begin = Err e → exposes (errorOf out) (errors_As e)) ∧
  (∀ p e, begin = Ok p → outcome p = Err e → exposes (errorOf out) (afterPoll e)).

(** The raw form of an output, as the service sends it. *)
Definition rawOutput (o : AzCliDeploymentOutput) : any :=
  AnyMap {[ "type" := AnyString (Type_ o); "value" := Value_ o ]}.

End AzapiSpec.

(* ===================================================================== *)
(** * Specification vocabulary for the kubectl wrapper *)
(* ===================================================================== *)

Module KubectlSpec.
Import Kubectl.

(** The flag arguments, in their fixed order. *)
Definition flagArgs (flags : option KubeCliFlags) : list string :=
  match flags with
  | None => []
  | Some flags =>
      (if bool_decide (DryRun flags = "") then []
       else ["--dry-run=" +:+ DryRun flags])
      ++ (if bool_decide (Namespace flags = "") then []
          else ["-n"; Namespace flags])
      ++ (if bool_decide (Output flags = "") then []
          else ["-o"; Output flags])
  end.


(** The operation ran exactly one command, which satisfies [P]. *)
Definition runs_one (P : RunArgs → Prop) (log log' : list RunArgs) : Prop :=
  ∃ c, log' = log ++ [c] ∧ P c.


(** The command [executeCommandWithArgs] hands to the runner. *)
Definition finalArgs (cli : kubectlCli) (args : RunArgs)
    (flags : option KubeCliFlags) : RunArgs :=
  {| Cmd := Cmd args;
     Args := Args args ++ flagArgs flags;
     Cwd := if bool_decide (cwd cli = "") then Cwd args else cwd cli;
     Env := Env args;
     EnrichError := true;
     StdIn := StdIn args |}.

(** ** Applying a directory of manifests *)

(** The extensions of manifest templates. *)
Definition isTemplate (name : string) : bool :=
  bool_decide (filepath_Ext name = ".yaml")
  || bool_decide (filepath_Ext name = ".yml").

(** What the traversal meets, in order: a manifest template with the
    outcome of reading it, or a directory that cannot be listed.  Each
    comes with the context messages of the directories above it,
    outermost first. *)
Inductive step : Type :=
  | Template (context : list string) (path : string) (read : result string)
  | Unlistable (context : list string) (path : string) (err : error).

Fixpoint visit `{Platform} (directoryPath : string) (listing : ReadDir)
    (context : list string) {struct listing} : list step :=
  match listing with
  | ReadDirErr err => [Unlistable context directoryPath err]
  | ReadDirOk entries => visit_entries directoryPath entries context
  end
with visit_entries `{Platform} (directoryPath : string) (entries : DirEntries)
    (context : list string) {struct entries} : list step :=
  match entries with
  | entries_nil => []
  | entries_cons name node rest =>
      let entryPath := filepath_Join directoryPath name in
      match node with
      | IsDir sub =>
          visit entryPath sub
            (context ++ ["failed applying templates at '" +:+ entryPath +:+ "', "])
      | IsFile read =>
          if isTemplate name
          then [Template
                  (context ++ ["failed applying template '" +:+ entryPath +:+ "', "])
                  entryPath read]
          else []
      end ++ visit_entries directoryPath rest context
  end.

(** An error below the context messages [context]. *)
Definition inContext (context : list string) (err : error) : error :=
  foldr Errorf err context.

(** The outcome of a computation, its error put in a context. *)
Definition reported (context : list string) (out : option error * list RunArgs)
  : option error * list RunArgs :=
  (inContext context <$> out.1, out.2).

(** A variable is resolved from the client's env map when present there,
    otherwise from the process environment. *)
Definition resolve `{Platform} (cli : kubectlCli) (name : string) : string :=
  default (os_Getenv name) (env cli !! name).

(** [kubectl apply -f -] with [text] on standard input. *)
Definition kubectlApply (cli : kubectlCli) (flags : option KubeCliFlags)
    (text : string) : RunArgs :=
  {| Cmd := "kubectl";
     Args := ["apply"; "-f"; "-"] ++ flagArgs flags;
     Cwd := cwd cli;
     Env := environ (env cli);
     EnrichError := true;
     StdIn := Some text |}.

(** One step: a template is read, its variables are substituted and the
    text is applied; any failure is reported in the step's context. *)
Definition perform `{Platform} (cli : kubectlCli) (flags : option KubeCliFlags)
    (s : step) : Cli (option error) :=
  match s with
  | Unlistable context path err =>
      ret (Some (inContext context
        (Errorf ("failed reading files in path, '" +:+ path +:+ "', ") err)))
  | Template context path (Err err) =>
      ret (Some (inContext context
        (Errorf ("failed reading manifest file '" +:+ path +:+ "', ") err)))
  | Template context path (Ok yaml) =>
      match envsubst_Eval yaml (resolve cli) with
      | Err err =>
          ret (Some (inContext context (Errorf "failed replacing env vars, " err)))
      | Ok text =>
          let* r := Run cli (kubectlApply cli flags text) in
          match r with
          | Err err =>
              ret (Some (inContext context
                (Errorf ("failed applying file '" +:+ path +:+ "', ")
                   (Errorf "kubectl apply -f: " err))))
          | Ok _ => ret None
          end
      end
  end.

(** The steps are performed in order, up to the first one that fails. *)
Fixpoint performAll `{Platform} (cli : kubectlCli) (flags : option KubeCliFlags)
    (steps : list step) : Cli (option error) :=
  match steps with
  | [] => ret None
  | s :: steps' =>
      let* r := perform cli flags s in
      match r with
      | Some err => ret (Some err)
      | None => performAll cli flags steps'
      end
  end.

(** ** Sample surroundings *)

Definition samplePlatform : Platform :=
  {| os_Getenv := λ name, if bool_decide (name = "HOME") then "/home/azd" else "";
     filepath_Join := λ dir name, dir +:+ "/" +:+ name;
     envsubst_Eval := λ text lookup, Ok (text +:+ lookup "TAG");
     getKubeConfigDir := Ok "/home/azd/.kube" |}.

Definition sampleRunner (log : list RunArgs) (c : RunArgs) : result RunResult :=
  Ok {| ExitCode := 0; Stdout := ""; Stderr := "" |}.

Definition sampleCli : kubectlCli :=
  {| commandRunner := sampleRunner;
     env := {[ "TAG" := "v1" ]};
     cwd := "/src" |}.

Definition sampleFlags : KubeCliFlags :=
  {| Namespace := "prod"; DryRun := "client"; Output := "json" |}.

Definition sampleTree : ReadDir :=
  ReadDirOk
    (entries_cons "a.yaml" (IsFile (Ok "kind: A "))
    (entries_cons "notes.txt" (IsFile (Ok "text"))
    (entries_cons "sub" (IsDir (ReadDirOk
        (entries_cons "b.yml" (IsFile (Ok "kind: B ")) entries_nil)))
    (entries_cons "z.YAML" (IsFile (Ok "kind: Z "))
     entries_nil)))).

(** ** Further vocabulary *)



(** Flags given, but with every field empty. *)
Definition emptyFlags : KubeCliFlags :=
  {| Namespace := ""; DryRun := ""; Output := "" |}.

(** What an operation returns for the answer [r] of the runner: the
    result on success, the error under the context message [msg]
    otherwise. *)
Definition answers (msg : string) (r : result RunResult)
    (out : option RunResult * option error) : Prop :=
  (∀ res, r = Ok res → out = (Some res, None)) ∧
  (∀ err, r = Err err → out = (None, Some (Errorf msg err))).

(** The operation ran exactly one command, to which the runner answered
    in the state of the log before it, and returned accordingly. *)
Definition runs_and_answers (cli : kubectlCli) (msg : string)
    (log : list RunArgs)
    (out : (option RunResult * option error) * list RunArgs) : Prop :=
  ∃ c, out.2 = log ++ [c] ∧ answers msg (commandRunner cli log c) out.1.

(** All of [steps] were applied, taking the log from [log] to [log']:
    each is a template that could be read and substituted, and whose
    [kubectl apply] the runner accepted. *)
Inductive applied `{Platform} (cli : kubectlCli) (flags : option KubeCliFlags)
  : list step → list RunArgs → list RunArgs → Prop :=
  | applied_nil (log : list RunArgs) : applied cli flags [] log log
  | applied_cons (context : list string) (path yaml text : string)
      (res : RunResult) (steps : list step) (log log' : list RunArgs) :
      envsubst_Eval yaml (resolve cli) = Ok text →
      commandRunner cli log (kubectlApply cli flags text) = Ok res →
      applied cli flags steps (log ++ [kubectlApply cli flags text]) log' →
      applied cli flags (Template context path (Ok yaml) :: steps) log log'.

End KubectlSpec.

(* ===================================================================== *)
(** * Specification vocabulary for the mock context *)
(* ===================================================================== *)

Module MocksSpec.
Import Mocks.

(** The closure [func() T { return mockContext.F }]. *)
Definition fieldOf (mockContext : addr) (f : MockContext → addr) : Resolver :=
  {| captured := mockContext; field := f |}.

(** The registry after [registerCommonMocks], starting from [registry]. *)
Definition commonMocks (mockContext : addr) (registry : gmap string Resolver)
  : gmap string Resolver :=
  <["*arm.ClientOptions" := fieldOf mockContext ArmClientOptions_]>
  (<["*policy.ClientOptions" := fieldOf mockContext CoreClientOptions]>
  (<["*alpha.FeatureManager" := fieldOf mockContext AlphaFeaturesManager]>
  (<["config.FileConfigManager" := fieldOf mockContext ConfigManager]>
  (<["input.Console" := fieldOf mockContext Console]>
  (<["exec.CommandRunner" := fieldOf mockContext CommandRunner]>
  (<["httputil.HttpClient" := fieldOf mockContext HttpClient]>
  (<["azcore.TokenCredential" := fieldOf mockContext Credentials]>
  (<["ioc.ServiceLocator" := fieldOf mockContext Container]> registry)))))))).

(** In [h] the pointer [mockContext] holds the context [mc], whose
    container has the given registry. *)
Definition wired (h : heap) (mockContext : addr) (mc : MockContext)
    (parent : option addr) (registry : gmap string Resolver) : Prop :=
  store h !! mockContext = Some (MockContextObj mc) ∧
  store h !! Container mc = Some (NestedContainer parent registry).

(** The container of [mc] resolves [type] to the object at [target],
    which is [o]. *)
Definition resolvesTo (h : heap) (mc : MockContext) (type : string)
    (target : addr) (o : object) : Prop :=
  Resolve h (Container mc) type = Some target ∧ store h !! target = Some o.

(** A store with nothing allocated. *)
Definition emptyHeap : heap := {| next := 0; store := ∅ |}.

(** ** Further vocabulary *)

(** The context built by [NewMockContext] when the next free address is
    [n]: its objects are allocated one after the other. *)
Definition contextAt (n : addr) : MockContext :=
  {| Credentials := 5 + n;
     Context := 6 + n;
     Console := 7 + n;
     CommandRunner := 8 + n;
     HttpClient := n;
     CoreClientOptions := 3 + n;
     ArmClientOptions_ := 4 + n;
     ConfigManager := 1 + n;
     SubscriptionCredentialProvider := 9 + n;
     MultiTenantCredentialProvider := 10 + n;
     Container := 11 + n;
     Config := 2 + n;
     AlphaFeaturesManager := 12 + n |}.

(** The objects the fields of a context point to. *)
Definition fields (mc : MockContext) : list addr :=
  [Credentials mc; Context mc; Console mc; HttpClient mc;
   CoreClientOptions mc; ArmClientOptions_ mc; CommandRunner mc;
   ConfigManager mc; Container mc; AlphaFeaturesManager mc;
   SubscriptionCredentialProvider mc; MultiTenantCredentialProvider mc;
   Config mc].

(** The types [registerCommonMocks] binds. *)
Definition commonTypes : list string :=
  ["ioc.ServiceLocator"; "azcore.TokenCredential"; "httputil.HttpClient";
   "exec.CommandRunner"; "input.Console"; "config.FileConfigManager";
   "*alpha.FeatureManager"; "*policy.ClientOptions"; "*arm.ClientOptions"].

End MocksSpec.

(* ===================================================================== *)
(** * Properties of the deployment wrapper *)
(* ===================================================================== *)

Module AzapiProofs.
Import Azapi AzapiSpec.

Lemma pagerLoop_all_pages (pages : list Page) :
  ∀ (l : list (option DeploymentExtended)) (log : list SdkCall),
    pagerLoop (Ok <$> pages) (mk_slice l) log
    = ((mk_slice (l ++ allValues pages), None),
       log ++ replicate (length pages) CallNextPage).
Proof.
  induction pages as [|page pages IH]; intros l log; simpl.
  - unfold ret, allValues. simpl. by rewrite !app_nil_r.
  - unfold bind, call. change (list_fmap _ _ Ok pages) with (Ok <$> pages).
    rewrite IH. unfold allValues. simpl. by rewrite <- !app_assoc.
Qed.

Lemma pagerLoop_page_error (pages : list Page) (err : error)
    (rest : list (result Page)) :
  ∀ (results : slice (option DeploymentExtended)) (log : list SdkCall),
    pagerLoop ((Ok <$> pages) ++ Err err :: rest) results log
    = ((nil_slice, Some err),
       log ++ replicate (S (length pages)) CallNextPage).
Proof.
  induction pages as [|page pages IH]; intros results log; simpl.
  - reflexivity.
  - unfold bind, call. rewrite IH. simpl. by rewrite <- app_assoc.
Qed.

(** Every pager is a run of good pages, possibly ended by a failing one. *)
Lemma pager_cases (pager : list (result Page)) :
  (∃ pages, pager = Ok <$> pages) ∨
  (∃ pages err rest, pager = (Ok <$> pages) ++ Err err :: rest).
Proof.
  induction pager as [|[page|err] pager IH].
  - left. by exists [].
  - destruct IH as [[pages ->]|(pages & e & rest & ->)].
    + left. by exists (page :: pages).
    + right. by exists (page :: pages), e, rest.
  - right. by exists [], err, pager.
Qed.

(** C3. For every sequence of pages the pager yields, the two list
    operations return the concatenation, in page order, of the [Value]
    slices of all pages, as an allocated slice (empty when there is no
    page) with a nil error; when fetching a page fails they return that
    error as it is, with a nil slice, whatever was accumulated. *)
Theorem list_deployments_concatenates_pages
    (ds : deployments) (resourceGroupName : string) (log : list SdkCall) :
  let sub := NewListAtSubscriptionScopePager (deploymentsClient ds) in
  let rg := NewListByResourceGroupPager (deploymentsClient ds) resourceGroupName in
  (∀ pages, sub = Ok <$> pages →
     (ListSubscriptionDeployments ds log).1 = (mk_slice (allValues pages), None)) ∧
  (∀ pages err rest, sub = (Ok <$> pages) ++ Err err :: rest →
     (ListSubscriptionDeployments ds log).1 = (nil_slice, Some err)) ∧
  (sub = [] → (ListSubscriptionDeployments ds log).1 = (mk_slice [], None)) ∧
  (∀ pages, rg = Ok <$> pages →
     (ListResourceGroupDeployments ds resourceGroupName log).1
     = (mk_slice (allValues pages), None)) ∧
  (∀ pages err rest, rg = (Ok <$> pages) ++ Err err :: rest →
     (ListResourceGroupDeployments ds resourceGroupName log).1
     = (nil_slice, Some err)) ∧
  (rg = [] →
     (ListResourceGroupDeployments ds resourceGroupName log).1 = (mk_slice [], None)).
Proof.
  intros sub rg.
  unfold ListSubscriptionDeployments, ListResourceGroupDeployments, bind, call.
  fold sub. fold rg.
  repeat split.
  - intros pages ->. by rewrite pagerLoop_all_pages.
  - intros pages err rest ->. by rewrite pagerLoop_page_error.
  - intros ->. reflexivity.
  - intros pages ->. by rewrite pagerLoop_all_pages.
  - intros pages err rest ->. by rewrite pagerLoop_page_error.
  - intros ->. reflexivity.
Qed.

(** ** Get operations *)

Lemma notFound_status (err : error) (r : ResponseError) :
  errors_As err = Some r → (notFound err ↔ StatusCode r = 404%Z).
Proof.
  intros Has. split.
  - intros (r' & Has' & Hst). congruence.
  - intros Hst. by exists r.
Qed.

Lemma notFound_none (err : error) : errors_As err = None → ¬ notFound err.
Proof. intros Has (r & Has' & _). congruence. Qed.

Ltac get_cases response :=
  destruct response as [d|err] eqn:Hresp; simpl;
  [| destruct (errors_As err) as [r|] eqn:Has;
     [destruct (Z.eqb_spec (StatusCode r) 404) as [Hst|Hst]|]; simpl ].

Lemma GetSubscriptionDeployment_behaviour (ds : deployments)
    (deploymentName : string) (log : list SdkCall) :
  get_behaviour (GetAtSubscriptionScope (deploymentsClient ds) deploymentName)
    "getting deployment from subscription: "
    (GetSubscriptionDeployment ds deploymentName log).1.
Proof.
  unfold get_behaviour, GetSubscriptionDeployment, bind, call, ret.
  get_cases (GetAtSubscriptionScope (deploymentsClient ds) deploymentName);
    repeat split; intros; simplify_eq; try done; exfalso.
  - by apply (notFound_status _ _ Has) in Hst.
  - match goal with H : notFound _ |- _ => by apply (notFound_status _ _ Has) in H end.
  - by eapply notFound_none.
Qed.

Lemma GetResourceGroupDeployment_behaviour (ds : deployments)
    (resourceGroupName deploymentName : string) (log : list SdkCall) :
  get_behaviour (Get (deploymentsClient ds) resourceGroupName deploymentName)
    "getting deployment from resource group: "
    (GetResourceGroupDeployment ds resourceGroupName deploymentName log).1.
Proof.
  unfold get_behaviour, GetResourceGroupDeployment, bind, call, ret.
  get_cases (Get (deploymentsClient ds) resourceGroupName deploymentName);
    repeat split; intros; simplify_eq; try done; exfalso.
  - by apply (notFound_status _ _ Has) in Hst.
  - match goal with H : notFound _ |- _ => by apply (notFound_status _ _ Has) in H end.
  - by eapply notFound_none.
Qed.

Lemma notFound_dec (err : error) : notFound err ∨ ¬ notFound err.
Proof.
  destruct (errors_As err) as [r|] eqn:Has.
  - destruct (decide (StatusCode r = 404%Z)) as [Hst|Hst].
    + left. by exists r.
    + right. intros H. by apply (notFound_status _ _ Has) in H.
  - right. by apply notFound_none.
Qed.

(** In every case of [get_behaviour] the sentinel is returned only in the
    not-found case. *)
Lemma get_behaviour_sentinel (response : result DeploymentExtended)
    (msg : string) (out : option DeploymentExtended * option error) :
  get_behaviour response msg out →
  (out.2 = Some ErrDeploymentNotFound ↔ ∃ err, response = Err err ∧ notFound err).
Proof.
  intros (H404 & Hother & Hok). split.
  - intros Hout. destruct response as [d|err].
    + rewrite (Hok d eq_refl) in Hout. discriminate.
    + exists err. split; [done|].
      destruct (notFound_dec err) as [|Hnot]; [done|].
      rewrite (Hother err eq_refl Hnot) in Hout. discriminate.
  - intros (err & -> & Hnf). by rewrite (H404 err eq_refl Hnf).
Qed.

(** C8. The two get operations return the sentinel [ErrDeploymentNotFound]
    exactly when the SDK call fails with an error carrying a response
    error whose status code is 404; every other failure is returned
    wrapped with a context message, and on success the deployment of the
    response is returned with a nil error. *)
Theorem get_deployment_not_found_sentinel (ds : deployments)
    (resourceGroupName deploymentName : string) (log : list SdkCall) :
  let sub := GetAtSubscriptionScope (deploymentsClient ds) deploymentName in
  let rg := Get (deploymentsClient ds) resourceGroupName deploymentName in
  let outSub := (GetSubscriptionDeployment ds deploymentName log).1 in
  let outRg :=
    (GetResourceGroupDeployment ds resourceGroupName deploymentName log).1 in
  (outSub.2 = Some ErrDeploymentNotFound ↔ ∃ err, sub = Err err ∧ notFound err) ∧
  (∀ err, sub = Err err → ¬ notFound err →
     outSub = (None, Some (Errorf "getting deployment from subscription: " err))) ∧
  (∀ err, sub = Err err → notFound err → outSub.1 = None) ∧
  (∀ d, sub = Ok d → outSub = (Some d, None)) ∧
  (outRg.2 = Some ErrDeploymentNotFound ↔ ∃ err, rg = Err err ∧ notFound err) ∧
  (∀ err, rg = Err err → ¬ notFound err →
     outRg = (None, Some (Errorf "getting deployment from resource group: " err))) ∧
  (∀ err, rg = Err err → notFound err → outRg.1 = None) ∧
  (∀ d, rg = Ok d → outRg = (Some d, None)).
Proof.
  intros sub rg outSub outRg.
  pose proof (GetSubscriptionDeployment_behaviour ds deploymentName log) as Hs.
  pose proof (GetResourceGroupDeployment_behaviour ds resourceGroupName
                deploymentName log) as Hr.
  fold sub outSub in Hs. fold rg outRg in Hr.
  pose proof (get_behaviour_sentinel _ _ _ Hs) as Hs'.
  pose proof (get_behaviour_sentinel _ _ _ Hr) as Hr'.
  destruct Hs as (Hs1 & Hs2 & Hs3), Hr as (Hr1 & Hr2 & Hr3).
  repeat split; try tauto; try done.
  - intros err He Hnf. by rewrite (Hs1 err He Hnf).
  - intros err He Hnf. by rewrite (Hr1 err He Hnf).
Qed.

(** ** Long-running operations *)

Ltac lro_cases :=
  unfold lro_behaviour, bind, call, ret, PollUntilDone; cbn;
  repeat split; intros;
  repeat match goal with H : _ = _ |- _ => rewrite H; clear H end;
  cbn; rewrite <- ?app_assoc; reflexivity.

Lemma DeployToSubscription_behaviour ds location deploymentName armTemplate
    parameters tags log :
  let request := deploymentRequest (Some location) armTemplate parameters tags in
  lro_behaviour
    (BeginCreateOrUpdateAtSubscriptionScope (deploymentsClient ds)
       deploymentName request)
    (CallBeginCreateOrUpdateAtSubscriptionScope deploymentName request)
    "starting deployment to subscription: "
    ("deploying to subscription:" +:+ LF +:+ LF +:+ "Deployment Error Details:" +:+ LF)
    createDeploymentError deploySuccess deployFailure log
    (DeployToSubscription ds location deploymentName armTemplate parameters
       tags log).
Proof. unfold DeployToSubscription, deploymentRequest. lro_cases. Qed.

Lemma DeployToResourceGroup_behaviour ds resourceGroup deploymentName
    armTemplate parameters tags log :
  let request := deploymentRequest None armTemplate parameters tags in
  lro_behaviour
    (BeginCreateOrUpdate (deploymentsClient ds) resourceGroup deploymentName
       request)
    (CallBeginCreateOrUpdate resourceGroup deploymentName request)
    "starting deployment to resource group: "
    ("deploying to resource group:" +:+ LF +:+ LF +:+ "Deployment Error Details:" +:+ LF)
    createDeploymentError deploySuccess deployFailure log
    (DeployToResourceGroup ds resourceGroup deploymentName armTemplate
       parameters tags log).
Proof. unfold DeployToResourceGroup, deploymentRequest. lro_cases. Qed.

Lemma WhatIfDeployToSubscription_behaviour ds location deploymentName
    armTemplate parameters log :
  let request :=
    whatIfRequest (Some location) (Some {| ws_ResultFormat := None |})
      armTemplate parameters in
  lro_behaviour
    (BeginWhatIfAtSubscriptionScope (deploymentsClient ds) deploymentName request)
    (CallBeginWhatIfAtSubscriptionScope deploymentName request)
    "starting deployment to subscription: "
    ("deploying to subscription:" +:+ LF +:+ LF +:+ "Deployment Error Details:" +:+ LF)
    createDeploymentError whatIfSuccess whatIfFailure log
    (WhatIfDeployToSubscription ds location deploymentName armTemplate
       parameters log).
Proof. unfold WhatIfDeployToSubscription, whatIfRequest. lro_cases. Qed.

Lemma WhatIfDeployToResourceGroup_behaviour ds resourceGroup deploymentName
    armTemplate parameters log :
  let request := whatIfRequest None None armTemplate parameters in
  lro_behaviour
    (BeginWhatIf (deploymentsClient ds) resourceGroup deploymentName request)
    (CallBeginWhatIf resourceGroup deploymentName request)
    "starting deployment to resource group: "
    ("deploying to resource group:" +:+ LF +:+ LF +:+ "Deployment Error Details:" +:+ LF)
    createDeploymentError whatIfSuccess whatIfFailure log
    (WhatIfDeployToResourceGroup ds resourceGroup deploymentName armTemplate
       parameters log).
Proof. unfold WhatIfDeployToResourceGroup, whatIfRequest. lro_cases. Qed.

Lemma DeleteSubscriptionDeployment_behaviour ds deploymentName log :
  lro_behaviour
    (BeginDeleteAtSubscriptionScope (deploymentsClient ds) deploymentName)
    (CallBeginDeleteAtSubscriptionScope deploymentName)
    "starting to delete deployment: "
    "deleting deployment operation: "
    (λ e, e) deleteSuccess deleteFailure log
    (DeleteSubscriptionDeployment ds deploymentName log).
Proof. unfold DeleteSubscriptionDeployment. lro_cases. Qed.

Lemma createDeploymentError_response (err : error) (r : ResponseError) :
  errors_As err = Some r →
  createDeploymentError err
  = AzureDeploymentError (default (ErrorText r) (RawBody r)).
Proof.
  intros Has. unfold createDeploymentError. rewrite Has.
  by destruct (RawBody r).
Qed.

Lemma createDeploymentError_other (err : error) :
  errors_As err = None → createDeploymentError err = err.
Proof. intros Has. unfold createDeploymentError. by rewrite Has. Qed.

Lemma lro_fails_iff {T R : Type} (begin : result (Poller T))
    (beginCall : SdkCall) (startMsg pollMsg : string)
    (pollError : error → error) (success : T → R) (failure : error → R)
    (errorOf : R → option error) (log : list SdkCall) (out : R * list SdkCall) :
  (∀ v, errorOf (success v) = None) →
  (∀ e, errorOf (failure e) = Some e) →
  lro_behaviour begin beginCall startMsg pollMsg pollError success failure log out →
  fails_exactly_when_sdk_fails begin errorOf out.1.
Proof.
  intros Hs Hf (Hbegin & Hok & Hpoll). unfold fails_exactly_when_sdk_fails.
  destruct begin as [p|e].
  - destruct (outcome p) as [v|e] eqn:Hout.
    + rewrite (Hok p v eq_refl Hout). simpl. rewrite Hs. split; split.
      * intros _. by exists p, v.
      * done.
      * intros [? ?]. discriminate.
      * intros [[e ?]|(p' & e & ? & ?)]; [discriminate|]. congruence.
    + rewrite (Hpoll p e eq_refl Hout). simpl. rewrite Hf. split; split.
      * discriminate.
      * intros (p' & v & ? & ?). congruence.
      * intros _. right. by exists p, e.
      * intros _. by eexists.
  - rewrite (Hbegin e eq_refl). simpl. rewrite Hf. split; split.
    + discriminate.
    + intros (p' & v & ? & ?). discriminate.
    + intros _. left. by exists e.
    + intros _. by eexists.
Qed.

Lemma lro_calls {T R : Type} (begin : result (Poller T))
    (beginCall : SdkCall) (startMsg pollMsg : string)
    (pollError : error → error) (success : T → R) (failure : error → R)
    (log : list SdkCall) (out : R * list SdkCall) :
  lro_behaviour begin beginCall startMsg pollMsg pollError success failure log out →
  ∃ polls, out.2 = log ++ beginCall :: polls ∧
           (polls = [] ∨ ∃ id, polls = [CallPollUntilDone id]).
Proof.
  intros (Hbegin & Hok & Hpoll). destruct begin as [p|e].
  - exists [CallPollUntilDone (poller_id p)]. split; [|right; by eexists].
    destruct (outcome p) as [v|e] eqn:Hout.
    + by rewrite (Hok p v eq_refl Hout).
    + by rewrite (Hpoll p e eq_refl Hout).
  - exists []. split; [|by left]. by rewrite (Hbegin e eq_refl).
Qed.

(** C2, as stated, fails: when the poll of a deployment fails with a
    response error, the error returned does not wrap that error; it wraps
    a new deployment error made from the response body. *)
Lemma deploy_poll_error_is_replaced :
  let e := ErrResponse (response 500) in
  let ds := NewDeployments (pollingClient [] (Some e)) in
  let returned := (DeployToSubscription ds "westus" "d" "{}" ∅ ∅ []).1.2 in
  returned
  = Some (Errorf ("deploying to subscription:" +:+ LF +:+ LF +:+ "Deployment Error Details:" +:+ LF)
                 (AzureDeploymentError "{}")) ∧
  ¬ ∃ msg, returned = Some (Errorf msg e).
Proof.
  split; [reflexivity|]. intros [msg H]. discriminate H.
Qed.

(** C2 (amended). Each long-running operation calls the SDK's [Begin*]
    operation and then [PollUntilDone] exactly once on the poller it got;
    on success it returns the poller's result; it fails exactly when the
    [Begin*] call or the poll fails.  A [Begin*] error, and a poll error
    of the delete operation, is wrapped as it is with a context message;
    a poll error of the deploy and what-if operations is first passed
    through [createDeploymentError], which replaces an error carrying a
    response error by a deployment error made from the response body (from
    the error text when the body cannot be read) and keeps any other
    error, and the result is wrapped with a context message. *)
Theorem long_running_operations_delegate_polling (ds : deployments)
    (location resourceGroup deploymentName : string)
    (armTemplate : RawArmTemplate) (parameters : ArmParameters)
    (tags : gmap string (option string)) (log : list SdkCall) :
  let client := deploymentsClient ds in
  let dSub := deploymentRequest (Some location) armTemplate parameters tags in
  let dRg := deploymentRequest None armTemplate parameters tags in
  let wSub := whatIfRequest (Some location) (Some {| ws_ResultFormat := None |})
                armTemplate parameters in
  let wRg := whatIfRequest None None armTemplate parameters in
  let deploySub := DeployToSubscription ds location deploymentName armTemplate
                     parameters tags log in
  let deployRg := DeployToResourceGroup ds resourceGroup deploymentName
                    armTemplate parameters tags log in
  let whatIfSub := WhatIfDeployToSubscription ds location deploymentName
                     armTemplate parameters log in
  let whatIfRg := WhatIfDeployToResourceGroup ds resourceGroup deploymentName
                    armTemplate parameters log in
  let delete := DeleteSubscriptionDeployment ds deploymentName log in
  (lro_behaviour
     (BeginCreateOrUpdateAtSubscriptionScope client deploymentName dSub)
     (CallBeginCreateOrUpdateAtSubscriptionScope deploymentName dSub)
     "starting deployment to subscription: "
     ("deploying to subscription:" +:+ LF +:+ LF +:+ "Deployment Error Details:" +:+ LF)
     createDeploymentError deploySuccess deployFailure log deploySub ∧
   fails_exactly_when_sdk_fails
     (BeginCreateOrUpdateAtSubscriptionScope client deploymentName dSub)
     snd deploySub.1) ∧
  (lro_behaviour
     (BeginCreateOrUpdate client resourceGroup deploymentName dRg)
     (CallBeginCreateOrUpdate resourceGroup deploymentName dRg)
     "starting deployment to resource group: "
     ("deploying to resource group:" +:+ LF +:+ LF +:+ "Deployment Error Details:" +:+ LF)
     createDeploymentError deploySuccess deployFailure log deployRg ∧
   fails_exactly_when_sdk_fails
     (BeginCreateOrUpdate client resourceGroup deploymentName dRg)
     snd deployRg.1) ∧
  (lro_behaviour
     (BeginWhatIfAtSubscriptionScope client deploymentName wSub)
     (CallBeginWhatIfAtSubscriptionScope deploymentName wSub)
     "starting deployment to subscription: "
     ("deploying to subscription:" +:+ LF +:+ LF +:+ "Deployment Error Details:" +:+ LF)
     createDeploymentError whatIfSuccess whatIfFailure log whatIfSub ∧
   fails_exactly_when_sdk_fails
     (BeginWhatIfAtSubscriptionScope client deploymentName wSub)
     snd whatIfSub.1) ∧
  (lro_behaviour
     (BeginWhatIf client resourceGroup deploymentName wRg)
     (CallBeginWhatIf resourceGroup deploymentName wRg)
     "starting deployment to resource group: "
     ("deploying to resource group:" +:+ LF +:+ LF +:+ "Deployment Error Details:" +:+ LF)
     createDeploymentError whatIfSuccess whatIfFailure log whatIfRg ∧
   fails_exactly_when_sdk_fails
     (BeginWhatIf client resourceGroup deploymentName wRg)
     snd whatIfRg.1) ∧
  (lro_behaviour
     (BeginDeleteAtSubscriptionScope client deploymentName)
     (CallBeginDeleteAtSubscriptionScope deploymentName)
     "starting to delete deployment: "
     "deleting deployment operation: "
     (λ e, e) deleteSuccess deleteFailure log delete ∧
   fails_exactly_when_sdk_fails
     (BeginDeleteAtSubscriptionScope client deploymentName)
     (λ r : option error, r) delete.1) ∧
  (∀ err r, errors_As err = Some r →
     createDeploymentError err
     = AzureDeploymentError (default (ErrorText r) (RawBody r))) ∧
  (∀ err, errors_As err = None → createDeploymentError err = err).
Proof.
  intros.
  pose proof (DeployToSubscription_behaviour ds location deploymentName
                armTemplate parameters tags log) as H1.
  pose proof (DeployToResourceGroup_behaviour ds resourceGroup deploymentName
                armTemplate parameters tags log) as H2.
  pose proof (WhatIfDeployToSubscription_behaviour ds location deploymentName
                armTemplate parameters log) as H3.
  pose proof (WhatIfDeployToResourceGroup_behaviour ds resourceGroup
                deploymentName armTemplate parameters log) as H4.
  pose proof (DeleteSubscriptionDeployment_behaviour ds deploymentName log) as H5.
  cbv zeta in H1, H2, H3, H4.
  split; [split; [exact H1|by eapply lro_fails_iff; [| |exact H1]]|].
  split; [split; [exact H2|by eapply lro_fails_iff; [| |exact H2]]|].
  split; [split; [exact H3|by eapply lro_fails_iff; [| |exact H3]]|].
  split; [split; [exact H4|by eapply lro_fails_iff; [| |exact H4]]|].
  split; [split; [exact H5|by eapply lro_fails_iff; [| |exact H5]]|].
  split.
  - apply createDeploymentError_response.
  - apply createDeploymentError_other.
Qed.

(** ** Error handling, operation by operation *)

(** C1, as stated, fails: the error [GetSubscriptionDeployment] returns is
    not a re-wrapping of the SDK error, since a 404 response error yields
    the sentinel while other errors are wrapped. *)
Lemma get_deployment_inspects_error :
  ¬ rewraps_only
      (λ e, (GetSubscriptionDeployment (NewDeployments (failingClient e))
               "d" []).1.2).
Proof.
  intros [H|[msg H]].
  - specialize (H (ErrResponse (response 404))). discriminate H.
  - specialize (H (ErrResponse (response 404))). discriminate H.
Qed.

(** C1 (amended). Polling and pagination are performed by the SDK.  As
    for errors: [CalculateTemplateHash] and the two list operations return
    the SDK error unchanged; the two get operations inspect it, returning
    the sentinel [ErrDeploymentNotFound] when it carries a response error
    with status 404 and the error wrapped with a context message
    otherwise; the long-running operations wrap a [Begin*] error with a
    context message, the delete operation wraps a poll error likewise, and
    the deploy and what-if operations pass a poll error through
    [createDeploymentError], which turns an error carrying a response
    error into a deployment error made from the response body, before
    wrapping it. *)
Theorem error_handling_by_operation (ds : deployments)
    (location resourceGroup deploymentName : string)
    (armTemplate : RawArmTemplate) (parameters : ArmParameters)
    (tags : gmap string (option string)) (log : list SdkCall) :
  let client := deploymentsClient ds in
  let dSub := deploymentRequest (Some location) armTemplate parameters tags in
  let dRg := deploymentRequest None armTemplate parameters tags in
  let wSub := whatIfRequest (Some location) (Some {| ws_ResultFormat := None |})
                armTemplate parameters in
  let wRg := whatIfRequest None None armTemplate parameters in
  (∀ e, CalculateTemplateHash_response client armTemplate = Err e →
     (CalculateTemplateHash ds armTemplate log).1 = Err e) ∧
  (∀ pages err rest,
     NewListAtSubscriptionScopePager client = (Ok <$> pages) ++ Err err :: rest →
     (ListSubscriptionDeployments ds log).1.2 = Some err) ∧
  (∀ pages err rest,
     NewListByResourceGroupPager client resourceGroup
     = (Ok <$> pages) ++ Err err :: rest →
     (ListResourceGroupDeployments ds resourceGroup log).1.2 = Some err) ∧
  get_behaviour (GetAtSubscriptionScope client deploymentName)
    "getting deployment from subscription: "
    (GetSubscriptionDeployment ds deploymentName log).1 ∧
  get_behaviour (Get client resourceGroup deploymentName)
    "getting deployment from resource group: "
    (GetResourceGroupDeployment ds resourceGroup deploymentName log).1 ∧
  lro_behaviour
    (BeginCreateOrUpdateAtSubscriptionScope client deploymentName dSub)
    (CallBeginCreateOrUpdateAtSubscriptionScope deploymentName dSub)
    "starting deployment to subscription: "
    ("deploying to subscription:" +:+ LF +:+ LF +:+ "Deployment Error Details:" +:+ LF)
    createDeploymentError deploySuccess deployFailure log
    (DeployToSubscription ds location deploymentName armTemplate parameters
       tags log) ∧
  lro_behaviour
    (BeginCreateOrUpdate client resourceGroup deploymentName dRg)
    (CallBeginCreateOrUpdate resourceGroup deploymentName dRg)
    "starting deployment to resource group: "
    ("deploying to resource group:" +:+ LF +:+ LF +:+ "Deployment Error Details:" +:+ LF)
    createDeploymentError deploySuccess deployFailure log
    (DeployToResourceGroup ds resourceGroup deploymentName armTemplate
       parameters tags log) ∧
  lro_behaviour
    (BeginWhatIfAtSubscriptionScope client deploymentName wSub)
    (CallBeginWhatIfAtSubscriptionScope deploymentName wSub)
    "starting deployment to subscription: "
    ("deploying to subscription:" +:+ LF +:+ LF +:+ "Deployment Error Details:" +:+ LF)
    createDeploymentError whatIfSuccess whatIfFailure log
    (WhatIfDeployToSubscription ds location deploymentName armTemplate
       parameters log) ∧
  lro_behaviour
    (BeginWhatIf client resourceGroup deploymentName wRg)
    (CallBeginWhatIf resourceGroup deploymentName wRg)
    "starting deployment to resource group: "
    ("deploying to resource group:" +:+ LF +:+ LF +:+ "Deployment Error Details:" +:+ LF)
    createDeploymentError whatIfSuccess whatIfFailure log
    (WhatIfDeployToResourceGroup ds resourceGroup deploymentName armTemplate
       parameters log) ∧
  lro_behaviour
    (BeginDeleteAtSubscriptionScope client deploymentName)
    (CallBeginDeleteAtSubscriptionScope deploymentName)
    "starting to delete deployment: "
    "deleting deployment operation: "
    (λ e, e) deleteSuccess deleteFailure log
    (DeleteSubscriptionDeployment ds deploymentName log) ∧
  (∀ err r, errors_As err = Some r →
     createDeploymentError err
     = AzureDeploymentError (default (ErrorText r) (RawBody r))) ∧
  (∀ err, errors_As err = None → createDeploymentError err = err).
Proof.
  intros client dSub dRg wSub wRg.
  split.
  { intros e He. unfold CalculateTemplateHash, call. simpl.
    fold client. by rewrite He. }
  split.
  { intros pages err rest Hp.
    unfold ListSubscriptionDeployments, bind, call. fold client.
    by rewrite Hp, pagerLoop_page_error. }
  split.
  { intros pages err rest Hp.
    unfold ListResourceGroupDeployments, bind, call. fold client.
    by rewrite Hp, pagerLoop_page_error. }
  split; [apply GetSubscriptionDeployment_behaviour|].
  split; [apply GetResourceGroupDeployment_behaviour|].
  split; [apply DeployToSubscription_behaviour|].
  split; [apply DeployToResourceGroup_behaviour|].
  split; [apply WhatIfDeployToSubscription_behaviour|].
  split; [apply WhatIfDeployToResourceGroup_behaviour|].
  split; [apply DeleteSubscriptionDeployment_behaviour|].
  split.
  - apply createDeploymentError_response.
  - apply createDeploymentError_other.
Qed.

(** ** What-if operations *)

Lemma replay_frame {Store : Type} (effect : SdkCall → Store → Store)
    (calls : list SdkCall) (s : Store) :
  (∀ c s', mutating c = false → effect c s' = s') →
  forallb (λ c, negb (mutating c)) calls = true →
  replay effect calls s = s.
Proof.
  intros Hframe. revert s. unfold replay.
  induction calls as [|c calls IH]; intros s Hall; simpl in *; [done|].
  apply andb_true_iff in Hall as [Hc Hall].
  rewrite Hframe by by destruct (mutating c). by apply IH.
Qed.

Lemma lro_only_request {T R : Type} (begin : result (Poller T))
    (beginCall : SdkCall) (startMsg pollMsg : string)
    (pollError : error → error) (success : T → R) (failure : error → R)
    (log : list SdkCall) (out : R * list SdkCall) :
  mutating beginCall = false →
  lro_behaviour begin beginCall startMsg pollMsg pollError success failure log out →
  only_request beginCall log out.2.
Proof.
  intros Hb H. destruct (lro_calls _ _ _ _ _ _ _ _ _ H) as (polls & Hlog & Hpolls).
  exists polls. split; [done|]. split; [done|].
  assert (forallb (λ c, negb (mutating c)) (beginCall :: polls) = true) as Hall.
  { simpl. rewrite Hb. simpl. by destruct Hpolls as [->|[id ->]]. }
  split; [done|]. intros Store effect s Hframe. by apply replay_frame.
Qed.

(** C4. The what-if operations are dry runs: all they send to the SDK is
    one what-if request carrying a [DeploymentWhatIf] payload, followed by
    at most one poll of the returned poller; they never send a
    create-or-update or delete request, so whatever state the mutating
    requests act on is left as it was. *)
Theorem what_if_sends_only_what_if_requests (ds : deployments)
    (location resourceGroup deploymentName : string)
    (armTemplate : RawArmTemplate) (parameters : ArmParameters)
    (log : list SdkCall) :
  only_request
    (CallBeginWhatIfAtSubscriptionScope deploymentName
       (whatIfRequest (Some location) (Some {| ws_ResultFormat := None |})
          armTemplate parameters))
    log
    (WhatIfDeployToSubscription ds location deploymentName armTemplate
       parameters log).2 ∧
  only_request
    (CallBeginWhatIf resourceGroup deploymentName
       (whatIfRequest None None armTemplate parameters))
    log
    (WhatIfDeployToResourceGroup ds resourceGroup deploymentName armTemplate
       parameters log).2.
Proof.
  split.
  - eapply lro_only_request; [done|].
    apply WhatIfDeployToSubscription_behaviour.
  - eapply lro_only_request; [done|].
    apply WhatIfDeployToResourceGroup_behaviour.
Qed.

(** ** Conversion of deployment outputs *)

Lemma convertOutput_returns (key : string) (output : any)
    (result : gmap string AzCliDeploymentOutput) :
  convertOutput key output (Returns result)
  = match outputOf output with
    | Some o => Returns (<[key := o]> result)
    | None => Panics
    end.
Proof.
  unfold convertOutput, outputOf, index. destruct output as [| | | | |inner]; try done.
  simpl. destruct (inner !! "type") as [[]|]; done.
Qed.

Lemma outputOf_shape (v : any) :
  is_Some (outputOf v) ↔ wellShaped v.
Proof.
  unfold wellShaped, outputOf. split.
  - intros [o Ho]. destruct v as [| | | | |inner]; try done.
    destruct (inner !! "type") as [[| | |ty| |]|] eqn:Hty; try done.
    by exists inner, ty.
  - intros (inner & ty & -> & ->). by eexists.
Qed.

Lemma fold_convertOutput (m : gmap string any) :
  match map_fold convertOutput (Returns ∅) m with
  | Returns result =>
      map_Forall (λ _ v, wellShaped v) m ∧ result = omap outputOf m
  | Panics => ¬ map_Forall (λ _ v, wellShaped v) m
  end.
Proof.
  apply (map_fold_weak_ind
    (λ r m, match r with
            | Returns result =>
                map_Forall (λ _ v, wellShaped v) m ∧ result = omap outputOf m
            | Panics => ¬ map_Forall (λ _ v, wellShaped v) m
            end)).
  - split; [apply map_Forall_empty|by rewrite omap_empty].
  - intros key output m' r Hfresh IH. destruct r as [result|].
    + rewrite convertOutput_returns. destruct IH as [Hall ->].
      destruct (outputOf output) as [o|] eqn:Ho.
      * split.
        -- apply map_Forall_insert; [done|]. split; [|done].
           apply outputOf_shape. by eexists.
        -- by rewrite (omap_insert_Some _ _ _ _ _ Ho).
      * intros Hins. apply map_Forall_insert in Hins as [Hshape _]; [|done].
        apply outputOf_shape in Hshape as [o Ho']. congruence.
    + simpl. intros Hins. apply map_Forall_insert in Hins as [_ Hall]; [|done].
      by apply IH.
Qed.

(** C9. [CreateDeploymentOutput] is partial: for a nil input it returns an
    empty, allocated map; for any other input it returns exactly when the
    input is a map from strings to maps that each hold a string under
    ["type"], and then every entry is converted to an output with that
    type and the entry under ["value"]; for every other input one of the
    unchecked type assertions panics, and such inputs exist. *)
Theorem CreateDeploymentOutput_partial :
  CreateDeploymentOutput AnyNil = Returns (mk_map ∅) ∧
  (∀ raw result, raw ≠ AnyNil →
     (CreateDeploymentOutput raw = Returns result ↔
      ∃ m, raw = AnyMap m ∧ map_Forall (λ _ v, wellShaped v) m ∧
           result = mk_map (omap outputOf m))) ∧
  (∀ raw, raw ≠ AnyNil →
     (CreateDeploymentOutput raw = Panics ↔
      ¬ ∃ m, raw = AnyMap m ∧ map_Forall (λ _ v, wellShaped v) m)) ∧
  (∀ (m inner : gmap string any) (key ty : string),
     map_Forall (λ _ v, wellShaped v) m →
     m !! key = Some (AnyMap inner) → inner !! "type" = Some (AnyString ty) →
     omap outputOf m !! key
     = Some {| Type_ := ty; Value_ := default AnyNil (inner !! "value") |}) ∧
  (∀ (m : gmap string any) (key : string),
     m !! key = None → omap outputOf m !! key = None) ∧
  CreateDeploymentOutput (AnyString "outputs") = Panics ∧
  CreateDeploymentOutput (AnyMap {[ "out" := AnyMap {[ "value" := AnyBool true ]} ]})
  = Panics.
Proof.
  assert (∀ m, CreateDeploymentOutput (AnyMap m)
               = panic_bind (map_fold convertOutput (Returns ∅) m)
                   (λ result, Returns (mk_map result))) as Hmap by done.
  split; [done|]. split; [|split; [|split; [|split; [|split]]]].
  - intros raw result Hnil. split.
    + destruct raw as [| | | | |m]; try done.
      rewrite Hmap. pose proof (fold_convertOutput m) as Hfold.
      destruct (map_fold convertOutput (Returns ∅) m) as [res|]; [|done].
      destruct Hfold as [Hall ->]. intros [= <-]. by exists m.
    + intros (m & -> & Hall & ->). rewrite Hmap.
      pose proof (fold_convertOutput m) as Hfold.
      destruct (map_fold convertOutput (Returns ∅) m) as [res|]; [|done].
      by destruct Hfold as [_ ->].
  - intros raw Hnil. split.
    + intros Hpanic (m & -> & Hall). rewrite Hmap in Hpanic.
      pose proof (fold_convertOutput m) as Hfold.
      destruct (map_fold convertOutput (Returns ∅) m) as [res|]; done.
    + intros Hnot. destruct raw as [| | | | |m]; try done.
      rewrite Hmap. pose proof (fold_convertOutput m) as Hfold.
      destruct (map_fold convertOutput (Returns ∅) m) as [res|]; [|done].
      destruct Hfold as [Hall _]. exfalso. apply Hnot. by exists m.
  - intros m inner key ty _ Hkey Hty. rewrite lookup_omap, Hkey. simpl.
    by rewrite Hty.
  - intros m key Hkey. by rewrite lookup_omap, Hkey.
  - done.
  - by vm_compute.
Qed.

(** ** The wrapper on sample services *)

Example LF_is_line_feed : LF = String (ascii_of_nat 10) "".
Proof. reflexivity. Qed.


Example list_two_pages :
  let d1 := Some sampleDeployment in
  let pager := [Ok {| Value := mk_slice [d1; None] |};
                Ok {| Value := nil_slice |};
                Ok {| Value := mk_slice [d1] |}] in
  ListSubscriptionDeployments (NewDeployments (pollingClient pager None)) []
  = ((mk_slice [d1; None; d1], None),
     [CallNewListAtSubscriptionScopePager; CallNextPage; CallNextPage;
      CallNextPage]).
Proof. reflexivity. Qed.

Example list_discards_pages_on_error :
  let pager := [Ok {| Value := mk_slice [Some sampleDeployment] |};
                Err (OtherError "timeout");
                Ok {| Value := mk_slice [None] |}] in
  ListResourceGroupDeployments (NewDeployments (pollingClient pager None)) "rg" []
  = ((nil_slice, Some (OtherError "timeout")),
     [CallNewListByResourceGroupPager "rg"; CallNextPage; CallNextPage]).
Proof. reflexivity. Qed.

Example get_not_found :
  (GetSubscriptionDeployment
     (NewDeployments (failingClient (ErrResponse (response 404)))) "d" []).1
  = (None, Some ErrDeploymentNotFound) ∧
  (GetResourceGroupDeployment
     (NewDeployments
        (failingClient (Errorf "transport: " (ErrResponse (response 404)))))
     "rg" "d" []).1
  = (None, Some ErrDeploymentNotFound) ∧
  (GetSubscriptionDeployment
     (NewDeployments (failingClient (ErrResponse (response 500)))) "d" []).1
  = (None, Some (Errorf "getting deployment from subscription: "
                   (ErrResponse (response 500)))) ∧
  (GetSubscriptionDeployment
     (NewDeployments (failingClient (OtherError "timeout"))) "d" []).1
  = (None, Some (Errorf "getting deployment from subscription: "
                   (OtherError "timeout"))) ∧
  (GetSubscriptionDeployment (NewDeployments (pollingClient [] None)) "d" []).1
  = (Some sampleDeployment, None).
Proof. by repeat split. Qed.

Example what_if_log :
  WhatIfDeployToResourceGroup (NewDeployments (pollingClient [] None))
    "rg" "d" "{}" ∅ []
  = ((Some {| wi_Status := "Succeeded" |}, None),
     [CallBeginWhatIf "rg" "d" (whatIfRequest None None "{}" ∅);
      CallPollUntilDone 4]).
Proof. reflexivity. Qed.

Example delete_poll_error_is_wrapped :
  DeleteSubscriptionDeployment
    (NewDeployments (pollingClient [] (Some (ErrResponse (response 409)))))
    "d" []
  = (Some (Errorf "deleting deployment operation: "
             (ErrResponse (response 409))),
     [CallBeginDeleteAtSubscriptionScope "d"; CallPollUntilDone 5]).
Proof. reflexivity. Qed.

Example outputs_converted :
  CreateDeploymentOutput
    (AnyMap {[ "url" := AnyMap {[ "type" := AnyString "String";
                                  "value" := AnyString "https://app" ]} ]})
  = Returns (mk_map {[ "url" := {| Type_ := "String";
                                   Value_ := AnyString "https://app" |} ]}).
Proof. by vm_compute. Qed.

End AzapiProofs.

(* ===================================================================== *)
(** * Properties of the kubectl wrapper *)
(* ===================================================================== *)

Module KubectlProofs.
Import Kubectl KubectlSpec.

Section WithPlatform.
Context `{Platform}.

Lemma executeCommandWithArgs_runs (cli : kubectlCli) (args : RunArgs)
    (flags : option KubeCliFlags) (log : list RunArgs) :
  executeCommandWithArgs cli args flags log
  = Run cli (finalArgs cli args flags) log.
Proof.
  unfold executeCommandWithArgs, finalArgs, flagArgs. f_equal.
  destruct args as [c a w e en i], flags as [[ns dry out]|]; simpl;
    repeat case_bool_decide; simplify_eq; simpl;
    unfold WithCwd, AppendParams, WithEnrichError; simpl;
    rewrite <- ?app_assoc, ?app_nil_r; try done; congruence.
Qed.


Lemma Exec_runs (cli : kubectlCli) (flags : option KubeCliFlags)
    (args : list string) (log : list RunArgs) :
  Exec cli flags args log
  = Run cli (finalArgs cli (NewRunArgs "kubectl" args) flags) log.
Proof. unfold Exec. by rewrite executeCommandWithArgs_runs. Qed.

Lemma kubectlApply_final (cli : kubectlCli) (flags : option KubeCliFlags)
    (input : string) :
  finalArgs cli
    (WithStdIn (WithEnv (NewRunArgs "kubectl" ["apply"; "-f"; "-"])
                        (environ (env cli))) input) flags
  = kubectlApply cli flags input.
Proof.
  unfold finalArgs, kubectlApply. simpl. f_equal. by case_bool_decide.
Qed.

Lemma ApplyWithInput_runs (cli : kubectlCli) (input : string)
    (flags : option KubeCliFlags) (log : list RunArgs) :
  ApplyWithInput cli input flags log
  = (wrapResult "kubectl apply -f: "
       (commandRunner cli log (kubectlApply cli flags input)),
     log ++ [kubectlApply cli flags input]).
Proof.
  unfold ApplyWithInput, bind. rewrite executeCommandWithArgs_runs.
  by rewrite kubectlApply_final.
Qed.


(** ** The traversal of [Apply] *)

Lemma inContext_snoc (context : list string) (msg : string) (err : error) :
  inContext (context ++ [msg]) err = inContext context (Errorf msg err).
Proof. unfold inContext. by rewrite foldr_app. Qed.

Lemma performAll_app (cli : kubectlCli) (flags : option KubeCliFlags)
    (steps steps' : list step) (log : list RunArgs) :
  performAll cli flags (steps ++ steps') log
  = match performAll cli flags steps log with
    | (Some err, log') => (Some err, log')
    | (None, log') => performAll cli flags steps' log'
    end.
Proof.
  revert log. induction steps as [|s steps IH]; intros log; simpl; [done|].
  unfold bind. destruct (perform cli flags s log) as [[err|] log']; [done|].
  apply IH.
Qed.

Lemma perform_template (cli : kubectlCli) (flags : option KubeCliFlags)
    (context : list string) (msg filePath : string) (fileRead : result string)
    (log : list RunArgs) :
  perform cli flags (Template (context ++ [msg]) filePath fileRead) log
  = reported context
      (match applyTemplate cli filePath fileRead flags log with
       | (Some err, log') => (Some (Errorf msg err), log')
       | (None, log') => (None, log')
       end).
Proof.
  unfold perform, applyTemplate, reported.
  destruct fileRead as [yaml|err]; simpl.
  - change (lookupEnv cli) with (resolve cli).
    destruct (envsubst_Eval yaml (resolve cli)) as [text|err]; simpl.
    + unfold bind. rewrite ApplyWithInput_runs. unfold Run.
      destruct (commandRunner cli log (kubectlApply cli flags text)); simpl;
        by rewrite ?inContext_snoc.
    + by rewrite inContext_snoc.
  - by rewrite inContext_snoc.
Qed.

#[local] Arguments perform : simpl never.
#[local] Arguments applyTemplate : simpl never.

Lemma applyTemplates_performs (cli : kubectlCli) (flags : option KubeCliFlags)
    (listing : ReadDir) :
  ∀ (directoryPath : string) (context : list string) (log : list RunArgs),
    performAll cli flags (visit directoryPath listing context) log
    = reported context (applyTemplates cli directoryPath listing flags log).
Proof.
  induction listing using ReadDir_mut with
    (P0 := λ entries,
       ∀ directoryPath context log,
         performAll cli flags (visit_entries directoryPath entries context) log
         = reported context
             (applyTemplates_range cli directoryPath entries flags log))
    (P1 := λ node,
       match node with
       | IsFile _ => True
       | IsDir sub =>
           ∀ directoryPath context log,
             performAll cli flags (visit directoryPath sub context) log
             = reported context
                 (applyTemplates cli directoryPath sub flags log)
       end);
    try done.
  - rename IHlisting into IHnode, IHlisting0 into IHrest.
    intros directoryPath context log. simpl. rewrite performAll_app.
    destruct node as [fileRead|sub].
    + unfold isTemplate.
      destruct (bool_decide (filepath_Ext name = ".yaml")
                || bool_decide (filepath_Ext name = ".yml")); simpl; [|apply IHrest].
      unfold bind at 1. rewrite perform_template. unfold bind, reported.
      destruct (applyTemplate cli (filepath_Join directoryPath name) fileRead
                  flags log) as [[err|] log']; simpl; [done|].
      apply IHrest.
    + simpl in IHnode. rewrite IHnode. unfold bind, reported.
      destruct (applyTemplates cli (filepath_Join directoryPath name) sub
                  flags log) as [[err|] log']; simpl.
      * by rewrite inContext_snoc.
      * apply IHrest.
Qed.

Lemma Apply_performs (cli : kubectlCli) (flags : option KubeCliFlags)
    (path : string) (listing : ReadDir) (log : list RunArgs) :
  Apply cli path listing flags log
  = performAll cli flags (visit path listing ["failed process templates, "]) log.
Proof.
  rewrite applyTemplates_performs. unfold Apply, bind, reported.
  by destruct (applyTemplates cli path listing flags log) as [[err|] log'].
Qed.

Lemma perform_runs (cli : kubectlCli) (flags : option KubeCliFlags)
    (s : step) (log : list RunArgs) :
  (perform cli flags s log).2 = log ∨
  ∃ text, (perform cli flags s log).2 = log ++ [kubectlApply cli flags text].
Proof.
  unfold perform. destruct s as [context path [yaml|err]|context path err];
    try by left.
  destruct (envsubst_Eval yaml (resolve cli)) as [text|err]; [|by left].
  right. exists text. unfold bind, Run.
  by destruct (commandRunner cli log (kubectlApply cli flags text)).
Qed.


Lemma Run_one (cli : kubectlCli) (P : RunArgs → Prop) (c : RunArgs)
    (log : list RunArgs) :
  P c → runs_one P log (Run cli c log).2.
Proof. intros Hc. by exists c. Qed.

Lemma literals_fold (secrets : list string) (args : list string) :
  foldl (λ args secret, args ++ ["--from-literal=" +:+ secret]) args secrets
  = args ++ ((λ secret, "--from-literal=" +:+ secret) <$> secrets).
Proof.
  revert args. induction secrets as [|secret secrets IH]; intros args; simpl.
  - by rewrite app_nil_r.
  - rewrite IH. by rewrite <- app_assoc.
Qed.

(** What each operation that goes through [Exec] hands to the runner. *)
Lemma Exec_based (cli : kubectlCli) (flags : option KubeCliFlags)
    (name deploymentName : string) (secrets args : list string)
    (log : list RunArgs) :
  let ran (own : list string) := log ++ [finalArgs cli (NewRunArgs "kubectl" own) flags] in
  (Exec cli flags args log).2 = ran args ∧
  (ConfigUseContext cli name flags log).2 = ran ["config"; "use-context"; name] ∧
  (CreateSecretGenericFromLiterals cli name secrets flags log).2
  = ran (["create"; "secret"; "generic"; name]
         ++ ((λ secret, "--from-literal=" +:+ secret) <$> secrets)) ∧
  (CreateNamespace cli name flags log).2 = ran ["create"; "namespace"; name] ∧
  (RolloutStatus cli deploymentName flags log).2
  = ran ["rollout"; "status"; "deployment/" +:+ deploymentName].
Proof.
  unfold ConfigUseContext, CreateSecretGenericFromLiterals, CreateNamespace,
    RolloutStatus, bind.
  rewrite literals_fold, !Exec_runs. by unfold Run.
Qed.

Lemma ConfigView_runs (cli : kubectlCli) (merge flatten : bool)
    (flags : option KubeCliFlags) (log : list RunArgs) (kubeConfigDir : string) :
  getKubeConfigDir = Ok kubeConfigDir →
  (ConfigView cli merge flatten flags log).2
  = log ++ [finalArgs cli
              (WithEnv (WithCwd
                 (NewRunArgs "kubectl"
                    (["config"; "view"]
                     ++ (if merge then ["--merge"] else [])
                     ++ (if flatten then ["--flatten"] else [])))
                 kubeConfigDir) (environ (env cli)))
              flags].
Proof.
  intros Hdir. unfold ConfigView. rewrite Hdir. unfold bind.
  rewrite executeCommandWithArgs_runs. unfold Run. by destruct merge, flatten.
Qed.




(** C6. [Apply] traverses the directory for manifest templating: it
    visits subdirectories recursively and, for exactly the entries that
    are not directories and whose extension is [.yaml] or [.yml], reads
    the file, substitutes environment variables (resolved from the env map
    set via [SetEnv] when present there, otherwise from the process
    environment) and applies the text with [kubectl apply -f -] on
    standard input; it stops at the first failing entry and reports that
    entry's error; entries with any other extension are skipped. *)
Theorem Apply_traverses_templates (cli : kubectlCli)
    (flags : option KubeCliFlags) (path : string) (listing : ReadDir)
    (log : list RunArgs) :
  Apply cli path listing flags log
  = performAll cli flags (visit path listing ["failed process templates, "]) log ∧
  (∀ name, isTemplate name = true ↔
           filepath_Ext name = ".yaml" ∨ filepath_Ext name = ".yml") ∧
  (∀ (envValues : gmap string string) name val,
     envValues !! name = Some val →
     resolve (SetEnv cli envValues log).1 name = val) ∧
  (∀ (envValues : gmap string string) name,
     envValues !! name = None →
     resolve (SetEnv cli envValues log).1 name = os_Getenv name).
Proof.
  split; [apply Apply_performs|]. split; [|split].
  - intros name. unfold isTemplate. rewrite orb_true_iff.
    by rewrite !bool_decide_eq_true.
  - intros envValues name val Hname. unfold resolve. simpl. by rewrite Hname.
  - intros envValues name Hname. unfold resolve. simpl. by rewrite Hname.
Qed.

(** ** Which commands receive the environment *)

Lemma environ_elems (values : gmap string string) :
  environ values
  = mk_slice ((λ kv, kv.1 +:+ "=" +:+ kv.2) <$> map_to_list values).
Proof.
  unfold environ. f_equal.
  assert (∀ (l : list (string * string)) (acc : list string),
            foldl (λ env kv, env ++ [kv.1 +:+ "=" +:+ kv.2]) acc l
            = acc ++ ((λ kv, kv.1 +:+ "=" +:+ kv.2) <$> l)) as Hfold.
  { induction l as [|kv l IH]; intros acc; simpl.
    - by rewrite app_nil_r.
    - rewrite IH. by rewrite <- app_assoc. }
  by rewrite Hfold.
Qed.

Lemma environ_entries (values : gmap string string) (s : string) :
  s ∈ elems (environ values) ↔
  ∃ key value, values !! key = Some value ∧ s = key +:+ "=" +:+ value.
Proof.
  rewrite environ_elems. simpl. rewrite list_elem_of_fmap. split.
  - intros ([key value] & -> & Hin). apply elem_of_map_to_list in Hin.
    by exists key, value.
  - intros (key & value & Hin & ->). exists (key, value). split; [done|].
    by apply elem_of_map_to_list.
Qed.

(** C10. The environment set via [SetEnv] is not passed to every command:
    the commands built through [Exec] run with no environment set,
    whatever the env map of the client is, while [ConfigView] and
    [ApplyWithInput] pass that map (as [key=value] entries) to the
    runner; [SetEnv] and [Cwd] change only the [env] and the [cwd] field
    of the client and run no command. *)
Theorem env_is_passed_only_by_apply_and_config_view (cli : kubectlCli)
    (flags : option KubeCliFlags) (name deploymentName input cwd' : string)
    (secrets args : list string) (merge flatten : bool)
    (envValues : gmap string string) (log : list RunArgs) :
  let cli' := (SetEnv cli envValues log).1 in
  runs_one (λ c, Env c = nil_slice) log (Exec cli' flags args log).2 ∧
  runs_one (λ c, Env c = nil_slice) log (ConfigUseContext cli' name flags log).2 ∧
  runs_one (λ c, Env c = nil_slice) log (CreateNamespace cli' name flags log).2 ∧
  runs_one (λ c, Env c = nil_slice) log
    (CreateSecretGenericFromLiterals cli' name secrets flags log).2 ∧
  runs_one (λ c, Env c = nil_slice) log
    (RolloutStatus cli' deploymentName flags log).2 ∧
  runs_one (λ c, Env c = environ envValues) log
    (ApplyWithInput cli' input flags log).2 ∧
  match getKubeConfigDir with
  | Ok _ =>
      runs_one (λ c, Env c = environ envValues) log
        (ConfigView cli' merge flatten flags log).2
  | Err _ => (ConfigView cli' merge flatten flags log).2 = log
  end ∧
  environ envValues ≠ nil_slice ∧
  (∀ s, s ∈ elems (environ envValues) ↔
        ∃ key value, envValues !! key = Some value ∧ s = key +:+ "=" +:+ value) ∧
  SetEnv cli envValues log
  = ({| commandRunner := commandRunner cli; env := envValues; cwd := cwd cli |},
     log) ∧
  Cwd_ cli cwd' log
  = ({| commandRunner := commandRunner cli; env := env cli; cwd := cwd' |}, log).
Proof.
  intros cli'.
  destruct (Exec_based cli' flags name deploymentName secrets args log)
    as (He & Hc & Hs & Hn & Hr).
  split; [rewrite He; by eexists|].
  split; [rewrite Hc; by eexists|].
  split; [rewrite Hn; by eexists|].
  split; [rewrite Hs; by eexists|].
  split; [rewrite Hr; by eexists|].
  split; [rewrite ApplyWithInput_runs; by eexists|].
  split.
  { destruct getKubeConfigDir as [dir|err] eqn:Hdir.
    - rewrite (ConfigView_runs _ _ _ _ _ dir Hdir). by eexists.
    - unfold ConfigView. by rewrite Hdir. }
  split; [done|]. split; [apply environ_entries|]. done.
Qed.

End WithPlatform.

(** ** Operations that run nothing *)


(** ** The sample tree *)

(** In the sample tree [a.yaml] and [sub/b.yml] are applied, in this
    order; [notes.txt] and [z.YAML] are skipped. *)
Example Apply_sampleTree :
  @Apply samplePlatform sampleCli "/m" sampleTree (Some sampleFlags) []
  = (None,
     [ {| Cmd := "kubectl";
          Args := ["apply"; "-f"; "-"; "--dry-run=client"; "-n"; "prod"; "-o"; "json"];
          Cwd := "/src"; Env := mk_slice ["TAG=v1"]; EnrichError := true;
          StdIn := Some "kind: A v1" |};
       {| Cmd := "kubectl";
          Args := ["apply"; "-f"; "-"; "--dry-run=client"; "-n"; "prod"; "-o"; "json"];
          Cwd := "/src"; Env := mk_slice ["TAG=v1"]; EnrichError := true;
          StdIn := Some "kind: B v1" |} ]).
Proof. by vm_compute. Qed.

(** When the first template cannot be read nothing is applied, and the
    error is reported in the context of the entry. *)
Example Apply_stops_at_first_failure :
  @Apply samplePlatform sampleCli "/m"
    (ReadDirOk
       (entries_cons "a.yml" (IsFile (Err (OtherError "permission denied")))
       (entries_cons "b.yml" (IsFile (Ok "kind: B ")) entries_nil)))
    None []
  = (Some (Errorf "failed process templates, "
        (Errorf "failed applying template '/m/a.yml', "
           (Errorf "failed reading manifest file '/m/a.yml', "
              (OtherError "permission denied")))),
     []).
Proof. by vm_compute. Qed.

Example filepath_Ext_examples :
  filepath_Ext "deploy.yaml" = ".yaml" ∧ filepath_Ext "a.b.yml" = ".yml" ∧
  filepath_Ext "Makefile" = "" ∧ filepath_Ext "dir.d/file" = "" ∧
  filepath_Ext ".yaml" = ".yaml" ∧ filepath_Ext "x." = ".".
Proof. by vm_compute. Qed.

End KubectlProofs.

(* ===================================================================== *)
(** * Properties of the mock context *)
(* ===================================================================== *)

Module MocksProofs.
Import Mocks MocksSpec.

Lemma wired_distinct h mockContext mc parent registry :
  wired h mockContext mc parent registry → Container mc ≠ mockContext.
Proof. intros [Hmc Hc] Heq. rewrite Heq in Hc. congruence. Qed.

Lemma registerField_wired h mockContext mc parent registry type f :
  wired h mockContext mc parent registry →
  ∃ h', registerField mockContext type f h = Returns (tt, h') ∧
        wired h' mockContext mc parent (<[type := fieldOf mockContext f]> registry) ∧
        next h' = next h ∧
        ∀ a, a ≠ Container mc → store h' !! a = store h !! a.
Proof.
  intros Hw. pose proof (wired_distinct _ _ _ _ _ Hw) as Hne.
  destruct Hw as [Hmc Hc].
  eexists. unfold registerField, hbind, loadMockContext, MustRegisterSingleton.
  rewrite Hmc, Hc. split; [reflexivity|]. unfold wired. simpl.
  rewrite lookup_insert_eq, lookup_insert_ne by done.
  repeat split; try done. intros a Ha. by rewrite lookup_insert_ne.
Qed.

Ltac register_step Hw :=
  let h' := fresh "h" in
  let Hrun := fresh "Hrun" in
  let Hw' := fresh "Hw" in
  let Hnext := fresh "Hnext" in
  let Hframe := fresh "Hframe" in
  lazymatch goal with
  | |- context [registerField ?p ?type ?f ?h] =>
      destruct (registerField_wired h p _ _ _ type f Hw)
        as (h' & Hrun & Hw' & Hnext & Hframe);
      rewrite Hrun; clear Hrun
  end.

Lemma registerCommonMocks_wired h mockContext mc parent registry :
  wired h mockContext mc parent registry →
  ∃ h', registerCommonMocks mockContext h = Returns (tt, h') ∧
        wired h' mockContext mc parent (commonMocks mockContext registry) ∧
        ∀ a, a ≠ Container mc → store h' !! a = store h !! a.
Proof.
  intros Hw. unfold registerCommonMocks, hbind.
  register_step Hw. register_step Hw0. register_step Hw1. register_step Hw2.
  register_step Hw3. register_step Hw4. register_step Hw5. register_step Hw6.
  register_step Hw7.
  eexists. split; [reflexivity|]. split; [exact Hw8|].
  intros a Ha.
  rewrite Hframe7, Hframe6, Hframe5, Hframe4, Hframe3, Hframe2, Hframe1,
    Hframe0, Hframe by done.
  done.
Qed.

Lemma Resolve_wired h mockContext mc parent registry type f :
  wired h mockContext mc parent registry →
  registry !! type = Some (fieldOf mockContext f) →
  Resolve h (Container mc) type = Some (f mc).
Proof.
  intros [Hmc Hc] Hreg. unfold Resolve, invoke. rewrite Hc, Hreg. simpl.
  by rewrite Hmc.
Qed.

Ltac lookup_allocated :=
  repeat (rewrite lookup_insert_ne by lia); apply lookup_insert_eq.

(** C7. [NewMockContext] wires the fakes into the container: it returns
    a mock context whose container resolves [azcore.TokenCredential] to
    the mock credentials, [httputil.HttpClient] to the mock HTTP client,
    [exec.CommandRunner] to the mock command runner, [input.Console] to
    the mock console, [config.FileConfigManager] to the mock config
    manager and [ioc.ServiceLocator] to the container itself, and whose
    core and ARM client options both have the mock HTTP client as their
    transport. *)
Theorem NewMockContext_wires_mocks (ctx : string) (h : heap) :
  ∃ mockContext mc h',
    NewMockContext ctx h = Returns (mockContext, h') ∧
    store h' !! mockContext = Some (MockContextObj mc) ∧
    resolvesTo h' mc "azcore.TokenCredential" (Credentials mc) MockCredentials ∧
    resolvesTo h' mc "httputil.HttpClient" (HttpClient mc) MockHttpClient ∧
    resolvesTo h' mc "exec.CommandRunner" (CommandRunner mc) MockCommandRunner ∧
    resolvesTo h' mc "input.Console" (Console mc) MockConsole ∧
    resolvesTo h' mc "config.FileConfigManager" (ConfigManager mc)
      MockConfigManager ∧
    resolvesTo h' mc "ioc.ServiceLocator" (Container mc)
      (NestedContainer None (commonMocks mockContext ∅)) ∧
    store h' !! CoreClientOptions mc
    = Some (ClientOptionsObj {| Transport := Some (HttpClient mc) |}) ∧
    store h' !! ArmClientOptions_ mc
    = Some (ArmClientOptionsObj
              {| arm_ClientOptions := {| Transport := Some (HttpClient mc) |} |}).
Proof.
  unfold NewMockContext.
  cbn [hbind new NewNestedContainer next store]. unfold hbind, hret.
  match goal with
  | |- context [registerCommonMocks ?p ?h0] =>
      match h0 with
      | context [MockContextObj ?mc0] =>
          assert (wired h0 p mc0 None ∅) as Hw
            by (split; cbn [store Container]; lookup_allocated);
          destruct (registerCommonMocks_wired _ _ _ _ _ Hw)
            as (h' & Hrun & Hw' & Hframe);
          rewrite Hrun; exists p, mc0, h'
      end
  end.
  cbn [store Container Credentials HttpClient CommandRunner Console
       ConfigManager CoreClientOptions ArmClientOptions_] in *.
  assert (∀ type f, commonMocks
            (S (S (S (S (S (S (S (S (S (S (S (S (S (next h)))))))))))))) ∅
            !! type
            = Some (fieldOf
                (S (S (S (S (S (S (S (S (S (S (S (S (S (next h))))))))))))))
                f) →
          Resolve h' (S (S (S (S (S (S (S (S (S (S (S (next h)))))))))))) type
          = Some (f _)) as Hres
    by (intros type f; apply (Resolve_wired _ _ _ _ _ _ _ Hw')).
  split; [reflexivity|]. split; [apply Hw'|].
  split; [split; [by apply (Hres _ Credentials)
                 |rewrite Hframe by lia; lookup_allocated]|].
  split; [split; [by apply (Hres _ HttpClient)
                 |rewrite Hframe by lia; lookup_allocated]|].
  split; [split; [by apply (Hres _ CommandRunner)
                 |rewrite Hframe by lia; lookup_allocated]|].
  split; [split; [by apply (Hres _ Console)
                 |rewrite Hframe by lia; lookup_allocated]|].
  split; [split; [by apply (Hres _ ConfigManager)
                 |rewrite Hframe by lia; lookup_allocated]|].
  split; [split; [by apply (Hres _ Container)|apply Hw']|].
  split; rewrite Hframe by lia; lookup_allocated.
Qed.

(** On the empty store the wiring can be computed. *)
Example NewMockContext_emptyHeap :
  match NewMockContext "ctx" emptyHeap with
  | Returns (mockContext, h') =>
      mockContext = 13 ∧
      Resolve h' 11 "httputil.HttpClient" = Some 0 ∧
      Resolve h' 11 "ioc.ServiceLocator" = Some 11 ∧
      Resolve h' 11 "azcore.TokenCredential" = Some 5 ∧
      Resolve h' 11 "io.Writer" = None ∧
      store h' !! 0 = Some MockHttpClient ∧
      store h' !! 3 = Some (ClientOptionsObj {| Transport := Some 0 |})
  | Panics => False
  end.
Proof. vm_compute. by repeat split. Qed.

End MocksProofs.

(* ===================================================================== *)
(** * Further properties of the deployment wrapper *)
(* ===================================================================== *)

Module AzapiMore.
Import Azapi AzapiSpec AzapiProofs.

(** ** Which requests the read operations send *)

(** X1. The list operations create the pager and then fetch one page per
    [NextPage] call, up to and including the first page that fails: the
    pages behind a failing page are never requested. *)
Theorem list_fetches_up_to_first_failure (ds : deployments)
    (resourceGroupName : string) (log : list SdkCall) :
  let sub := NewListAtSubscriptionScopePager (deploymentsClient ds) in
  let rg := NewListByResourceGroupPager (deploymentsClient ds) resourceGroupName in
  (∀ pages, sub = Ok <$> pages →
     (ListSubscriptionDeployments ds log).2
     = log ++ CallNewListAtSubscriptionScopePager
              :: replicate (length pages) CallNextPage) ∧
  (∀ pages err rest, sub = (Ok <$> pages) ++ Err err :: rest →
     (ListSubscriptionDeployments ds log).2
     = log ++ CallNewListAtSubscriptionScopePager
              :: replicate (S (length pages)) CallNextPage) ∧
  (∀ pages, rg = Ok <$> pages →
     (ListResourceGroupDeployments ds resourceGroupName log).2
     = log ++ CallNewListByResourceGroupPager resourceGroupName
              :: replicate (length pages) CallNextPage) ∧
  (∀ pages err rest, rg = (Ok <$> pages) ++ Err err :: rest →
     (ListResourceGroupDeployments ds resourceGroupName log).2
     = log ++ CallNewListByResourceGroupPager resourceGroupName
              :: replicate (S (length pages)) CallNextPage).
Proof.
  intros sub rg.
  unfold ListSubscriptionDeployments, ListResourceGroupDeployments, bind, call.
  fold sub. fold rg.
  repeat split.
  - intros pages ->. rewrite pagerLoop_all_pages. simpl. by rewrite <- app_assoc.
  - intros pages err rest ->. rewrite pagerLoop_page_error. simpl.
    by rewrite <- app_assoc.
  - intros pages ->. rewrite pagerLoop_all_pages. simpl. by rewrite <- app_assoc.
  - intros pages err rest ->. rewrite pagerLoop_page_error. simpl.
    by rewrite <- app_assoc.
Qed.

Lemma pagerLoop_calls (pager : list (result Page)) :
  ∀ (results : slice (option DeploymentExtended)) (log : list SdkCall),
    ∃ n, n ≤ length pager ∧
         (pagerLoop pager results log).2 = log ++ replicate n CallNextPage.
Proof.
  induction pager as [|[page|err] pager IH]; intros results log; simpl.
  - exists 0. split; [done|]. by rewrite app_nil_r.
  - unfold bind, call.
    destruct (IH (append results (Value page)) (log ++ [CallNextPage]))
      as (n & Hn & ->).
    exists (S n). split; [lia|]. by rewrite <- app_assoc.
  - exists 1. split; [lia|]. done.
Qed.

Lemma replicate_NextPage_read_only (n : nat) :
  Forall (λ c, mutating c = false) (replicate n CallNextPage).
Proof. induction n; by constructor. Qed.

(** X2. The read operations never send a request that changes deployment
    state: the get operations and [CalculateTemplateHash] send exactly one
    request, whatever the answer; the list operations send the pager
    request and at most one page request per page. *)
Theorem read_operations_send_no_mutating_request (ds : deployments)
    (resourceGroupName deploymentName : string) (template : RawArmTemplate)
    (log : list SdkCall) :
  sends_read_only [CallCalculateTemplateHash template] log
    (CalculateTemplateHash ds template log).2 ∧
  sends_read_only [CallGetAtSubscriptionScope deploymentName] log
    (GetSubscriptionDeployment ds deploymentName log).2 ∧
  sends_read_only [CallGet resourceGroupName deploymentName] log
    (GetResourceGroupDeployment ds resourceGroupName deploymentName log).2 ∧
  (∃ n, n ≤ length (NewListAtSubscriptionScopePager (deploymentsClient ds)) ∧
        sends_read_only
          (CallNewListAtSubscriptionScopePager :: replicate n CallNextPage) log
          (ListSubscriptionDeployments ds log).2) ∧
  (∃ n, n ≤ length (NewListByResourceGroupPager (deploymentsClient ds)
                      resourceGroupName) ∧
        sends_read_only
          (CallNewListByResourceGroupPager resourceGroupName
             :: replicate n CallNextPage) log
          (ListResourceGroupDeployments ds resourceGroupName log).2).
Proof.
  split; [split; [done|by repeat constructor]|].
  split.
  { split; [|by repeat constructor].
    unfold GetSubscriptionDeployment, bind, call.
    destruct (GetAtSubscriptionScope _ _) as [d|err]; [done|].
    destruct (errors_As err) as [r|]; [|done].
    by destruct (StatusCode r =? 404)%Z. }
  split.
  { split; [|by repeat constructor].
    unfold GetResourceGroupDeployment, bind, call.
    destruct (Get _ _ _) as [d|err]; [done|].
    destruct (errors_As err) as [r|]; [|done].
    by destruct (StatusCode r =? 404)%Z. }
  split.
  - unfold ListSubscriptionDeployments, bind, call.
    destruct (pagerLoop_calls
                (NewListAtSubscriptionScopePager (deploymentsClient ds))
                (mk_slice []) (log ++ [CallNewListAtSubscriptionScopePager]))
      as (n & Hn & Hlog).
    exists n. split; [done|]. split.
    + rewrite Hlog. by rewrite <- app_assoc.
    + constructor; [done|apply replicate_NextPage_read_only].
  - unfold ListResourceGroupDeployments, bind, call.
    destruct (pagerLoop_calls
                (NewListByResourceGroupPager (deploymentsClient ds)
                   resourceGroupName)
                (mk_slice [])
                (log ++ [CallNewListByResourceGroupPager resourceGroupName]))
      as (n & Hn & Hlog).
    exists n. split; [done|]. split.
    + rewrite Hlog. by rewrite <- app_assoc.
    + constructor; [done|apply replicate_NextPage_read_only].
Qed.

(** ** What a caller can still find in a returned error *)

Lemma createDeploymentError_hides (err : error) :
  errors_As (createDeploymentError err) = None.
Proof.
  unfold createDeploymentError. by destruct (errors_As err) eqn:Has.
Qed.

Lemma lro_error_visibility {T R : Type} (begin : result (Poller T))
    (beginCall : SdkCall) (startMsg pollMsg : string)
    (pollError : error → error) (success : T → R) (failure : error → R)
    (errorOf : R → option error) (log : list SdkCall) (out : R * list SdkCall) :
  (∀ e, errorOf (failure e) = Some e) →
  lro_behaviour begin beginCall startMsg pollMsg pollError success failure log out →
  error_visibility begin errorOf (λ e, errors_As (pollError e)) out.1.
Proof.
  intros Hf (Hbegin & _ & Hpoll). split.
  - intros e He. rewrite (Hbegin e He). simpl. rewrite Hf. by eexists.
  - intros p e Hp He. rewrite (Hpoll p e Hp He). simpl. rewrite Hf. by eexists.
Qed.

(** X3. After a failed [Begin*] call every long-running operation returns an
    error in which [errors.As] still finds the response error of the SDK,
    if there was one.  After a failed poll this holds for the delete
    operation only: the deploy and what-if operations return an error in
    which no response error can be found, since [createDeploymentError]
    never returns one. *)
Theorem poll_failure_hides_response_error (ds : deployments)
    (location resourceGroup deploymentName : string)
    (armTemplate : RawArmTemplate) (parameters : ArmParameters)
    (tags : gmap string (option string)) (log : list SdkCall) :
  let client := deploymentsClient ds in
  error_visibility
    (BeginCreateOrUpdateAtSubscriptionScope client deploymentName
       (deploymentRequest (Some location) armTemplate parameters tags))
    snd (λ _, None)
    (DeployToSubscription ds location deploymentName armTemplate parameters
       tags log).1 ∧
  error_visibility
    (BeginCreateOrUpdate client resourceGroup deploymentName
       (deploymentRequest None armTemplate parameters tags))
    snd (λ _, None)
    (DeployToResourceGroup ds resourceGroup deploymentName armTemplate
       parameters tags log).1 ∧
  error_visibility
    (BeginWhatIfAtSubscriptionScope client deploymentName
       (whatIfRequest (Some location) (Some {| ws_ResultFormat := None |})
          armTemplate parameters))
    snd (λ _, None)
    (WhatIfDeployToSubscription ds location deploymentName armTemplate
       parameters log).1 ∧
  error_visibility
    (BeginWhatIf client resourceGroup deploymentName
       (whatIfRequest None None armTemplate parameters))
    snd (λ _, None)
    (WhatIfDeployToResourceGroup ds resourceGroup deploymentName armTemplate
       parameters log).1 ∧
  error_visibility
    (BeginDeleteAtSubscriptionScope client deploymentName)
    (λ r : option error, r) errors_As
    (DeleteSubscriptionDeployment ds deploymentName log).1 ∧
  ∀ err, errors_As (createDeploymentError err) = None.
Proof.
  intros client.
  assert (∀ {T R} (begin : result (Poller T)) (errorOf : R → option error)
            (out : R),
            error_visibility begin errorOf
              (λ e, errors_As (createDeploymentError e)) out →
            error_visibility begin errorOf (λ _, None) out) as Hhide.
  { intros T R begin errorOf out [Hb Hp]. split; [done|].
    intros p e Hbegin He. destruct (Hp p e Hbegin He) as (e' & ? & Has).
    exists e'. split; [done|]. by rewrite Has, createDeploymentError_hides. }
  split.
  { apply Hhide.
    eapply lro_error_visibility; [|apply DeployToSubscription_behaviour]; done. }
  split.
  { apply Hhide.
    eapply lro_error_visibility; [|apply DeployToResourceGroup_behaviour]; done. }
  split.
  { apply Hhide.
    eapply lro_error_visibility; [|apply WhatIfDeployToSubscription_behaviour]; done. }
  split.
  { apply Hhide.
    eapply lro_error_visibility; [|apply WhatIfDeployToResourceGroup_behaviour]; done. }
  split.
  { eapply (lro_error_visibility _ _ _ _ (λ e, e));
      [|apply DeleteSubscriptionDeployment_behaviour]; done. }
  apply createDeploymentError_hides.
Qed.

Lemma get_behaviour_never_404 (response : result DeploymentExtended)
    (msg : string) (out : option DeploymentExtended * option error) :
  get_behaviour response msg out →
  (∀ e r, out.2 = Some e → errors_As e = Some r → StatusCode r ≠ 404%Z) ∧
  (∀ err, response = Err err → ¬ notFound err →
          exposes out.2 (errors_As err)).
Proof.
  intros (H404 & Hother & Hok). split.
  - intros e r Hout Has Hst. destruct response as [d|err].
    + rewrite (Hok d eq_refl) in Hout. discriminate.
    + destruct (notFound_dec err) as [Hnf|Hnf].
      * rewrite (H404 err eq_refl Hnf) in Hout. simpl in Hout.
        injection Hout as <-. discriminate.
      * rewrite (Hother err eq_refl Hnf) in Hout. simpl in Hout.
        injection Hout as <-. simpl in Has. apply Hnf. by exists r.
  - intros err -> Hnf. rewrite (Hother err eq_refl Hnf). by eexists.
Qed.

(** X4. A caller of the get operations never sees a 404 as a response error:
    whenever the returned error carries a response error its status is
    not 404 (a 404 is always reported as the sentinel), and every other
    failure still carries the response error of the SDK, if there was
    one. *)
Theorem get_never_returns_a_404_response (ds : deployments)
    (resourceGroupName deploymentName : string) (log : list SdkCall) :
  let outSub := (GetSubscriptionDeployment ds deploymentName log).1 in
  let outRg :=
    (GetResourceGroupDeployment ds resourceGroupName deploymentName log).1 in
  (∀ e r, outSub.2 = Some e → errors_As e = Some r → StatusCode r ≠ 404%Z) ∧
  (∀ e r, outRg.2 = Some e → errors_As e = Some r → StatusCode r ≠ 404%Z) ∧
  (∀ err, GetAtSubscriptionScope (deploymentsClient ds) deploymentName = Err err →
          ¬ notFound err → exposes outSub.2 (errors_As err)) ∧
  (∀ err, Get (deploymentsClient ds) resourceGroupName deploymentName = Err err →
          ¬ notFound err → exposes outRg.2 (errors_As err)).
Proof.
  intros outSub outRg.
  destruct (get_behaviour_never_404 _ _ _
              (GetSubscriptionDeployment_behaviour ds deploymentName log))
    as [Hs1 Hs2].
  destruct (get_behaviour_never_404 _ _ _
              (GetResourceGroupDeployment_behaviour ds resourceGroupName
                 deploymentName log))
    as [Hr1 Hr2].
  done.
Qed.

(** ** Conversion of outputs *)

Lemma outputOf_rawOutput (o : AzCliDeploymentOutput) :
  outputOf (rawOutput o) = Some o.
Proof.
  destruct o as [ty v]. unfold outputOf, rawOutput.
  cbn [Type_ Value_]. rewrite lookup_insert_eq.
  rewrite lookup_insert_ne by done. by rewrite lookup_singleton_eq.
Qed.

Lemma CreateDeploymentOutput_map (m : gmap string any) :
  match CreateDeploymentOutput (AnyMap m) with
  | Returns result =>
      map_Forall (λ _ v, wellShaped v) m ∧ result = mk_map (omap outputOf m)
  | Panics => ¬ map_Forall (λ _ v, wellShaped v) m
  end.
Proof.
  change (CreateDeploymentOutput (AnyMap m))
    with (panic_bind (map_fold convertOutput (Returns ∅) m)
            (λ result, Returns (mk_map result))).
  pose proof (fold_convertOutput m) as Hfold.
  destruct (map_fold convertOutput (Returns ∅) m) as [res|]; simpl; [|done].
  by destruct Hfold as [Hall ->].
Qed.

(** X5. Converting the raw form of a map of outputs gives the outputs back. *)
Theorem CreateDeploymentOutput_of_raw_outputs
    (outputs : gmap string AzCliDeploymentOutput) :
  CreateDeploymentOutput (AnyMap (rawOutput <$> outputs))
  = Returns (mk_map outputs).
Proof.
  pose proof (CreateDeploymentOutput_map (rawOutput <$> outputs)) as Hmap.
  destruct (CreateDeploymentOutput (AnyMap (rawOutput <$> outputs)))
    as [result|].
  - destruct Hmap as [_ ->]. do 2 f_equal. apply map_eq. intros key.
    rewrite lookup_omap, lookup_fmap.
    destruct (outputs !! key) as [o|]; simpl; [|done].
    apply outputOf_rawOutput.
  - exfalso. apply Hmap. intros key v. rewrite lookup_fmap.
    destruct (outputs !! key) as [o|]; simpl; [|done].
    intros [= <-]. apply outputOf_shape. rewrite outputOf_rawOutput. by eexists.
Qed.

(** X6. When the conversion returns, the result is an allocated map with
    exactly the keys of the raw outputs, and each output has the type and
    the value found under its key (a nil value when there is none);
    nothing is dropped and nothing is invented.  Otherwise it panics and
    some entry is not well shaped. *)
Theorem CreateDeploymentOutput_keeps_keys (m : gmap string any) :
  match CreateDeploymentOutput (AnyMap m) with
  | Returns (mk_map result) =>
      dom result = dom m ∧
      ∀ key o, result !! key = Some o →
        ∃ inner, m !! key = Some (AnyMap inner) ∧
                 inner !! "type" = Some (AnyString (Type_ o)) ∧
                 Value_ o = default AnyNil (inner !! "value")
  | Returns nil_map => False
  | Panics => ∃ key v, m !! key = Some v ∧ ¬ wellShaped v
  end.
Proof.
  pose proof (CreateDeploymentOutput_map m) as Hmap.
  destruct (CreateDeploymentOutput (AnyMap m)) as [result|].
  - destruct Hmap as [Hall ->]. split.
    + apply set_eq. intros key. rewrite !elem_of_dom, lookup_omap.
      destruct (m !! key) as [v|] eqn:Hkey; simpl.
      * split; [by eexists|]. intros _. apply outputOf_shape. by eapply Hall.
      * split; intros [? ?]; done.
    + intros key o. rewrite lookup_omap.
      destruct (m !! key) as [v|] eqn:Hkey; simpl; [|done].
      unfold outputOf. destruct v as [| | | | |inner]; try done.
      destruct (inner !! "type") as [[| | |ty| |]|] eqn:Hty; try done.
      intros [= <-]. by exists inner.
  - assert (¬ map_Forall (λ _ v, is_Some (outputOf v)) m) as Hnot.
    { intros Hall. apply Hmap. intros key v Hkey. apply outputOf_shape.
      by eapply Hall. }
    apply map_not_Forall in Hnot; [|apply _].
    destruct Hnot as (key & v & Hkey & Hv). exists key, v. split; [done|].
    intros Hshape. by apply Hv, outputOf_shape.
Qed.

End AzapiMore.

(* ===================================================================== *)
(** * Further properties of the kubectl wrapper *)
(* ===================================================================== *)

Module KubectlMore.
Import Kubectl KubectlSpec KubectlProofs.

Section WithPlatform.
Context `{Platform}.

(** ** Flags and working directory *)

Lemma finalArgs_emptyFlags (cli : kubectlCli) (args : RunArgs) :
  finalArgs cli args (Some emptyFlags) = finalArgs cli args None.
Proof. reflexivity. Qed.

Lemma performAll_emptyFlags (cli : kubectlCli) (steps : list step)
    (log : list RunArgs) :
  performAll cli (Some emptyFlags) steps log = performAll cli None steps log.
Proof.
  revert log. induction steps as [|s steps IH]; intros log; [done|].
  simpl. unfold bind.
  replace (perform cli (Some emptyFlags) s log) with (perform cli None s log)
    by (by destruct s as [? ? []|]).
  destruct (perform cli None s log) as [[err|] log']; [done|]. apply IH.
Qed.

(** X7. Flags whose three fields are empty behave like no flags at all, for
    every operation: the same command is run and the same is returned. *)
Theorem empty_flags_are_no_flags (cli : kubectlCli)
    (name deploymentName input path : string) (secrets args : list string)
    (merge flatten : bool) (listing : ReadDir) (runArgs : RunArgs)
    (log : list RunArgs) :
  let flags := Some emptyFlags in
  executeCommandWithArgs cli runArgs flags log
  = executeCommandWithArgs cli runArgs None log ∧
  Exec cli flags args log = Exec cli None args log ∧
  ConfigUseContext cli name flags log = ConfigUseContext cli name None log ∧
  ConfigView cli merge flatten flags log = ConfigView cli merge flatten None log ∧
  ApplyWithInput cli input flags log = ApplyWithInput cli input None log ∧
  Apply cli path listing flags log = Apply cli path listing None log ∧
  CreateSecretGenericFromLiterals cli name secrets flags log
  = CreateSecretGenericFromLiterals cli name secrets None log ∧
  CreateNamespace cli name flags log = CreateNamespace cli name None log ∧
  RolloutStatus cli deploymentName flags log
  = RolloutStatus cli deploymentName None log.
Proof.
  intros flags.
  assert (∀ a l, executeCommandWithArgs cli a flags l
                 = executeCommandWithArgs cli a None l) as Hexec.
  { intros a l. by rewrite !executeCommandWithArgs_runs, finalArgs_emptyFlags. }
  assert (∀ a l, Exec cli flags a l = Exec cli None a l) as HExec
    by (intros; apply Hexec).
  split; [apply Hexec|]. split; [apply HExec|].
  split; [unfold ConfigUseContext, bind; by rewrite HExec|].
  split.
  { unfold ConfigView. destruct getKubeConfigDir; [|done].
    unfold bind. by rewrite Hexec. }
  split; [unfold ApplyWithInput, bind; by rewrite Hexec|].
  split; [rewrite !Apply_performs; apply performAll_emptyFlags|].
  split; [unfold CreateSecretGenericFromLiterals, bind; by rewrite HExec|].
  split; [unfold CreateNamespace, bind; by rewrite HExec|].
  unfold RolloutStatus, bind; by rewrite HExec.
Qed.

(** X8. The working directory of a command is the one set by [Cwd]; when none
    is set (the empty string) the commands built through [Exec] and
    [ApplyWithInput] run with no working directory, and [ConfigView] runs
    in the kube config directory.  A directory set by [Cwd] overrides the
    kube config directory of [ConfigView]. *)
Theorem working_directory_of_commands (cli : kubectlCli)
    (flags : option KubeCliFlags) (name deploymentName input : string)
    (secrets args : list string) (merge flatten : bool) (log : list RunArgs) :
  runs_one (λ c, Cwd c = cwd cli) log (Exec cli flags args log).2 ∧
  runs_one (λ c, Cwd c = cwd cli) log (ConfigUseContext cli name flags log).2 ∧
  runs_one (λ c, Cwd c = cwd cli) log
    (CreateSecretGenericFromLiterals cli name secrets flags log).2 ∧
  runs_one (λ c, Cwd c = cwd cli) log (CreateNamespace cli name flags log).2 ∧
  runs_one (λ c, Cwd c = cwd cli) log
    (RolloutStatus cli deploymentName flags log).2 ∧
  runs_one (λ c, Cwd c = cwd cli) log (ApplyWithInput cli input flags log).2 ∧
  (∀ kubeConfigDir, getKubeConfigDir = Ok kubeConfigDir →
     runs_one (λ c, (cwd cli = "" → Cwd c = kubeConfigDir) ∧
                    (cwd cli ≠ "" → Cwd c = cwd cli))
       log (ConfigView cli merge flatten flags log).2).
Proof.
  destruct (Exec_based cli flags name deploymentName secrets args log)
    as (He & Hc & Hs & Hn & Hr).
  assert (∀ own, Cwd (finalArgs cli (NewRunArgs "kubectl" own) flags) = cwd cli)
    as Hcwd by (intros own; simpl; by case_bool_decide).
  split; [rewrite He; by eexists|].
  split; [rewrite Hc; by eexists|].
  split; [rewrite Hs; by eexists|].
  split; [rewrite Hn; by eexists|].
  split; [rewrite Hr; by eexists|].
  split; [rewrite ApplyWithInput_runs; by eexists|].
  intros dir Hdir. rewrite (ConfigView_runs _ _ _ _ _ dir Hdir).
  eexists. split; [done|]. simpl. by case_bool_decide.
Qed.

(** ** What the operations return *)

Lemma wrapResult_answers (msg : string) (r : result RunResult) :
  answers msg r (wrapResult msg r).
Proof. unfold answers, wrapResult. destruct r; split; intros; congruence. Qed.

(** X9. Every operation that runs one command returns what the runner
    answered to it: the result when the command succeeded, and otherwise
    the runner's error under the operation's own context message ([Exec]
    adds none).  [ConfigView] returns the error of [getKubeConfigDir] as
    it is, having run nothing. *)
Theorem operations_return_the_runner_answer (cli : kubectlCli)
    (flags : option KubeCliFlags) (name deploymentName input : string)
    (secrets args : list string) (merge flatten : bool) (log : list RunArgs) :
  (∃ c, (Exec cli flags args log).2 = log ++ [c] ∧
        (Exec cli flags args log).1 = commandRunner cli log c) ∧
  runs_and_answers cli "failed setting kubectl context: " log
    (ConfigUseContext cli name flags log) ∧
  runs_and_answers cli "kubectl apply -f: " log
    (ApplyWithInput cli input flags log) ∧
  runs_and_answers cli "kubectl create secret generic --from-literal: " log
    (CreateSecretGenericFromLiterals cli name secrets flags log) ∧
  runs_and_answers cli "kubectl create namespace: " log
    (CreateNamespace cli name flags log) ∧
  runs_and_answers cli "deployment rollout failed, " log
    (RolloutStatus cli deploymentName flags log) ∧
  match getKubeConfigDir with
  | Ok _ =>
      runs_and_answers cli "kubectl config view: " log
        (ConfigView cli merge flatten flags log)
  | Err err => ConfigView cli merge flatten flags log = ((None, Some err), log)
  end.
Proof.
  unfold runs_and_answers, ConfigUseContext, CreateSecretGenericFromLiterals,
    CreateNamespace, RolloutStatus, bind.
  rewrite !Exec_runs, ApplyWithInput_runs. unfold Run. simpl.
  split; [by eexists|].
  split; [eexists; split; [done|apply wrapResult_answers]|].
  split; [eexists; split; [done|apply wrapResult_answers]|].
  split; [eexists; split; [done|apply wrapResult_answers]|].
  split; [eexists; split; [done|apply wrapResult_answers]|].
  split; [eexists; split; [done|apply wrapResult_answers]|].
  unfold ConfigView. destruct getKubeConfigDir as [dir|err]; [|done].
  unfold bind. rewrite executeCommandWithArgs_runs. unfold Run. simpl.
  eexists; split; [done|apply wrapResult_answers].
Qed.

(** ** What [Apply] has done when it returns *)

#[local] Arguments perform : simpl never.

Lemma perform_success (cli : kubectlCli) (flags : option KubeCliFlags)
    (s : step) (log log' : list RunArgs) :
  perform cli flags s log = (None, log') ↔
  ∃ context path yaml text res,
    s = Template context path (Ok yaml) ∧
    envsubst_Eval yaml (resolve cli) = Ok text ∧
    commandRunner cli log (kubectlApply cli flags text) = Ok res ∧
    log' = log ++ [kubectlApply cli flags text].
Proof.
  split.
  - unfold perform. destruct s as [context path [yaml|err]|context path err];
      try done.
    destruct (envsubst_Eval yaml (resolve cli)) as [text|err] eqn:Heval;
      [|done].
    unfold bind, Run.
    destruct (commandRunner cli log (kubectlApply cli flags text))
      as [res|err] eqn:Hrun; [|done].
    intros [= <-]. by exists context, path, yaml, text, res.
  - intros (context & path & yaml & text & res & -> & Heval & Hrun & ->).
    unfold perform. rewrite Heval. unfold bind, Run. by rewrite Hrun.
Qed.

Lemma performAll_success (cli : kubectlCli) (flags : option KubeCliFlags)
    (steps : list step) (log log' : list RunArgs) :
  performAll cli flags steps log = (None, log') ↔
  applied cli flags steps log log'.
Proof.
  split.
  - revert log. induction steps as [|s steps IH]; intros log; simpl.
    + intros [= <-]. constructor.
    + unfold bind. destruct (perform cli flags s log) as [[err|] mid] eqn:Hs;
        [done|].
      apply perform_success in Hs
        as (context & path & yaml & text & res & -> & Heval & Hrun & ->).
      intros Hrest. econstructor; [done|done|]. by apply IH.
  - induction 1 as [log|context path yaml text res steps log log' Heval Hrun _ IH];
      [done|].
    simpl. unfold bind.
    assert (perform cli flags (Template context path (Ok yaml)) log
            = (None, log ++ [kubectlApply cli flags text])) as ->; [|done].
    apply perform_success. by exists context, path, yaml, text, res.
Qed.

Lemma performAll_failure (cli : kubectlCli) (flags : option KubeCliFlags)
    (steps : list step) (log log' : list RunArgs) (err : error) :
  performAll cli flags steps log = (Some err, log') ↔
  ∃ before s after mid,
    steps = before ++ s :: after ∧
    applied cli flags before log mid ∧
    perform cli flags s mid = (Some err, log').
Proof.
  split.
  - revert log. induction steps as [|s steps IH]; intros log; simpl; [done|].
    unfold bind. destruct (perform cli flags s log) as [[e|] mid] eqn:Hs.
    + intros [= <- <-]. exists [], s, steps, log. repeat split; [constructor|done].
    + intros Hrest. destruct (IH _ Hrest) as (before & s' & after & mid' & -> & Hb & Hs').
      exists (s :: before), s', after, mid'. repeat split; [|done].
      apply performAll_success. simpl. unfold bind. rewrite Hs.
      by apply performAll_success.
  - intros (before & s & after & mid & -> & Hb & Hs).
    rewrite performAll_app. apply performAll_success in Hb. rewrite Hb.
    simpl. unfold bind. by rewrite Hs.
Qed.

Lemma applied_commands (cli : kubectlCli) (flags : option KubeCliFlags)
    (steps : list step) (log log' : list RunArgs) :
  applied cli flags steps log log' →
  ∃ texts, length texts = length steps ∧
           log' = log ++ (kubectlApply cli flags <$> texts).
Proof.
  induction 1 as [log|context path yaml text res steps log log' _ _ _ IH].
  - exists []. by rewrite app_nil_r.
  - destruct IH as (texts & Hlen & ->). exists (text :: texts). simpl.
    split; [by rewrite Hlen|by rewrite <- app_assoc].
Qed.

Lemma applied_templates (cli : kubectlCli) (flags : option KubeCliFlags)
    (steps : list step) (log log' : list RunArgs) :
  applied cli flags steps log log' →
  Forall (λ s, ∃ context path yaml, s = Template context path (Ok yaml)) steps.
Proof.
  induction 1 as [log|context path yaml text res steps log log' _ _ _ IH];
    constructor; [by exists context, path, yaml|done].
Qed.

(** X10. [Apply] succeeds exactly when every step of the traversal
    succeeds: no directory below the path fails to be listed, and every
    template could be read and substituted and the runner accepted its
    [kubectl apply].  It has then run one command per template of the
    tree, in traversal order, and nothing else.  A directory that cannot
    be listed makes [Apply] fail, whatever it holds. *)
Theorem Apply_succeeds_iff_all_applied (cli : kubectlCli)
    (flags : option KubeCliFlags) (path : string) (listing : ReadDir)
    (log log' : list RunArgs) :
  let steps := visit path listing ["failed process templates, "] in
  (Apply cli path listing flags log = (None, log') ↔
   applied cli flags steps log log') ∧
  (applied cli flags steps log log' →
   Forall (λ s, ∃ context p yaml, s = Template context p (Ok yaml)) steps ∧
   ∃ texts, length texts = length steps ∧
            log' = log ++ (kubectlApply cli flags <$> texts)) ∧
  (∀ context p err, Unlistable context p err ∈ steps →
     ∃ e, (Apply cli path listing flags log).1 = Some e) ∧
  (∀ context p err, Template context p (Err err) ∈ steps →
     ∃ e, (Apply cli path listing flags log).1 = Some e).
Proof.
  intros steps.
  assert (∀ s, s ∈ steps →
            (∀ context p yaml, s ≠ Template context p (Ok yaml)) →
            ∃ e, (Apply cli path listing flags log).1 = Some e) as Hfail.
  { intros s Hin Hs.
    destruct (Apply cli path listing flags log) as [[e|] l2] eqn:Hrun;
      [by exists e|].
    exfalso. rewrite Apply_performs in Hrun.
    apply performAll_success, applied_templates in Hrun.
    rewrite Forall_forall in Hrun.
    destruct (Hrun s Hin) as (context & p & yaml & ->). by eapply Hs. }
  split; [rewrite Apply_performs; apply performAll_success|].
  split.
  { intros Happlied. split; [by eapply applied_templates|].
    by apply applied_commands. }
  split.
  - intros context p err Hin. by apply (Hfail _ Hin).
  - intros context p err Hin. by apply (Hfail _ Hin).
Qed.

(** All templates of this tree are applied, and yet [Apply] fails on
    the directory that cannot be listed. *)
Example Apply_unlistable_directory :
  @Apply samplePlatform sampleCli "/m"
    (ReadDirOk
       (entries_cons "a.yaml" (IsFile (Ok "kind: A "))
       (entries_cons "locked" (IsDir (ReadDirErr (OtherError "permission denied")))
        entries_nil)))
    None []
  = (Some (Errorf "failed process templates, "
        (Errorf "failed applying templates at '/m/locked', "
           (Errorf "failed reading files in path, '/m/locked', "
              (OtherError "permission denied")))),
     [kubectlApply sampleCli None "kind: A v1"]).
Proof. by vm_compute. Qed.

(** X11. [Apply] fails exactly when some step of the traversal fails after all
    the steps before it were applied; the error is the one of that step,
    the steps behind it are not touched, and at most the command of the
    failing step itself was run after those of the steps before it. *)
Theorem Apply_fails_at_first_failing_step (cli : kubectlCli)
    (flags : option KubeCliFlags) (path : string) (listing : ReadDir)
    (log log' : list RunArgs) (err : error) :
  let steps := visit path listing ["failed process templates, "] in
  (Apply cli path listing flags log = (Some err, log') ↔
   ∃ before s after mid,
     steps = before ++ s :: after ∧
     applied cli flags before log mid ∧
     perform cli flags s mid = (Some err, log')) ∧
  (∀ s mid, perform cli flags s mid = (Some err, log') →
     log' = mid ∨ ∃ text, log' = mid ++ [kubectlApply cli flags text]).
Proof.
  intros steps. split.
  - rewrite Apply_performs. apply performAll_failure.
  - intros s mid Hs. pose proof (perform_runs cli flags s mid) as Hruns.
    by rewrite Hs in Hruns.
Qed.

End WithPlatform.

(** ** Which entries are templates *)





End KubectlMore.

(* ===================================================================== *)
(** * Further properties of the mock context *)
(* ===================================================================== *)

Module MocksMore.
Import Mocks MocksSpec MocksProofs.

Lemma registerCommonMocks_next h mockContext mc parent registry h' :
  wired h mockContext mc parent registry →
  registerCommonMocks mockContext h = Returns (tt, h') →
  next h' = next h.
Proof.
  intros Hw. unfold registerCommonMocks, hbind.
  register_step Hw. register_step Hw0. register_step Hw1. register_step Hw2.
  register_step Hw3. register_step Hw4. register_step Hw5. register_step Hw6.
  register_step Hw7.
  intros [= <-]. congruence.
Qed.

(** What [NewMockContext] does to the store, in full. *)
Lemma NewMockContext_store (ctx : string) (h : heap) :
  let n := next h in
  let mc := contextAt n in
  ∃ h', NewMockContext ctx h = Returns (13 + n, h') ∧
        next h' = 14 + n ∧
        wired h' (13 + n) mc None (commonMocks (13 + n) ∅) ∧
        (∀ a, a < n → store h' !! a = store h !! a) ∧
        store h' !! HttpClient mc = Some MockHttpClient ∧
        store h' !! ConfigManager mc = Some MockConfigManager ∧
        store h' !! Config mc = Some EmptyConfig ∧
        store h' !! CoreClientOptions mc
        = Some (ClientOptionsObj {| Transport := Some (HttpClient mc) |}) ∧
        store h' !! ArmClientOptions_ mc
        = Some (ArmClientOptionsObj
                  {| arm_ClientOptions := {| Transport := Some (HttpClient mc) |} |}) ∧
        store h' !! Credentials mc = Some MockCredentials ∧
        store h' !! Context mc = Some (ContextCell ctx) ∧
        store h' !! Console mc = Some MockConsole ∧
        store h' !! CommandRunner mc = Some MockCommandRunner ∧
        store h' !! SubscriptionCredentialProvider mc
        = Some MockSubscriptionCredentialProvider ∧
        store h' !! MultiTenantCredentialProvider mc
        = Some MockMultiTenantCredentialProvider ∧
        store h' !! AlphaFeaturesManager mc = Some (FeatureManager (Config mc)).
Proof.
  intros n mc. subst n mc. unfold NewMockContext.
  cbn [hbind new NewNestedContainer next store]. unfold hbind, hret.
  match goal with
  | |- context [registerCommonMocks ?p ?h0] =>
      assert (wired h0 p (contextAt (next h)) None ∅) as Hw
        by (split; cbn [store Container contextAt]; lookup_allocated);
      destruct (registerCommonMocks_wired _ _ _ _ _ Hw)
        as (h' & Hrun & Hw' & Hframe);
      pose proof (registerCommonMocks_next _ _ _ _ _ _ Hw Hrun) as Hnext;
      cbn [next] in Hnext;
      change p with (13 + next h) in *;
      rewrite Hrun; exists h'
  end.
  cbn [store Container Credentials HttpClient CommandRunner Console Context
       ConfigManager CoreClientOptions ArmClientOptions_ Config
       AlphaFeaturesManager SubscriptionCredentialProvider
       MultiTenantCredentialProvider contextAt] in *.
  split; [reflexivity|]. split; [exact Hnext|]. split; [exact Hw'|].
  split.
  { intros a Ha. rewrite Hframe by lia. cbn [store].
    repeat (rewrite lookup_insert_ne by lia). done. }
  repeat split; rewrite Hframe by lia; cbn [store]; lookup_allocated.
Qed.

(** ** What the container resolves *)

Lemma commonMocks_Some (p : addr) (type : string) (r : Resolver) :
  commonMocks p ∅ !! type = Some r → captured r = p ∧ type ∈ commonTypes.
Proof.
  unfold commonMocks, commonTypes. intros Hreg.
  repeat (apply lookup_insert_Some in Hreg as [[<- <-]|[_ Hreg]];
          [split; [done|rewrite !elem_of_cons; tauto]|]).
  by rewrite lookup_empty in Hreg.
Qed.

Lemma commonMocks_bound (p : addr) (type : string) :
  type ∈ commonTypes → is_Some (commonMocks p ∅ !! type).
Proof.
  unfold commonTypes. rewrite !elem_of_cons, elem_of_nil.
  intros Hin. unfold commonMocks.
  repeat (destruct Hin as [->|Hin];
          [repeat (rewrite lookup_insert_ne by done);
           rewrite lookup_insert_eq; by eexists|]).
  done.
Qed.

Lemma Resolve_common (h : heap) (p : addr) (mc : MockContext) (type : string) :
  wired h p mc None (commonMocks p ∅) →
  Resolve h (Container mc) type
  = (λ r, field r mc) <$> commonMocks p ∅ !! type.
Proof.
  intros [Hmc Hc]. unfold Resolve. rewrite Hc.
  destruct (commonMocks p ∅ !! type) as [r|] eqn:Hreg; [|done].
  apply (commonMocks_Some p) in Hreg as [Hp _]. unfold invoke.
  by rewrite Hp, Hmc.
Qed.

Lemma Resolve_common_is_Some (h : heap) (p : addr) (mc : MockContext)
    (type : string) :
  wired h p mc None (commonMocks p ∅) →
  is_Some (Resolve h (Container mc) type) ↔ type ∈ commonTypes.
Proof.
  intros Hw. rewrite (Resolve_common _ _ _ _ Hw), fmap_is_Some. split.
  - intros [r Hreg]. by apply (commonMocks_Some p) in Hreg as [_ ?].
  - apply commonMocks_bound.
Qed.

(** X13. Besides the six bindings for the fakes, the container of a new mock
    context resolves [*alpha.FeatureManager], [*policy.ClientOptions] and
    [*arm.ClientOptions] to the feature manager and the two client
    options of the context, and it resolves no other type. *)
Theorem container_binds_exactly_the_common_types (ctx : string) (h : heap) :
  ∃ mockContext mc h',
    NewMockContext ctx h = Returns (mockContext, h') ∧
    store h' !! mockContext = Some (MockContextObj mc) ∧
    resolvesTo h' mc "*alpha.FeatureManager" (AlphaFeaturesManager mc)
      (FeatureManager (Config mc)) ∧
    resolvesTo h' mc "*policy.ClientOptions" (CoreClientOptions mc)
      (ClientOptionsObj {| Transport := Some (HttpClient mc) |}) ∧
    resolvesTo h' mc "*arm.ClientOptions" (ArmClientOptions_ mc)
      (ArmClientOptionsObj
         {| arm_ClientOptions := {| Transport := Some (HttpClient mc) |} |}) ∧
    (∀ type, is_Some (Resolve h' (Container mc) type) ↔ type ∈ commonTypes) ∧
    (∀ type, type ∉ commonTypes → Resolve h' (Container mc) type = None).
Proof.
  destruct (NewMockContext_store ctx h)
    as (h' & Hrun & _ & Hw & _ & _ & _ & _ & Hcore & Harm & _ & _ & _ & _ & _
        & _ & Halpha).
  exists (13 + next h), (contextAt (next h)), h'.
  split; [done|]. split; [apply Hw|].
  split; [split; [by rewrite (Resolve_common _ _ _ _ Hw)|done]|].
  split; [split; [by rewrite (Resolve_common _ _ _ _ Hw)|done]|].
  split; [split; [by rewrite (Resolve_common _ _ _ _ Hw)|done]|].
  split; [intros type; apply (Resolve_common_is_Some _ _ _ _ Hw)|].
  intros type Hnot.
  destruct (Resolve h' (Container (contextAt (next h))) type) eqn:Hres; [|done].
  exfalso. apply Hnot. apply (Resolve_common_is_Some _ _ _ type Hw).
  by rewrite Hres.
Qed.

(** ** The objects of a context *)

Lemma fields_bounds (n a : addr) :
  a ∈ fields (contextAt n) → n ≤ a < 13 + n.
Proof.
  unfold fields, contextAt. cbn [Credentials Context Console HttpClient
    CoreClientOptions ArmClientOptions_ CommandRunner ConfigManager Container
    AlphaFeaturesManager SubscriptionCredentialProvider
    MultiTenantCredentialProvider Config].
  rewrite !elem_of_cons, elem_of_nil. lia.
Qed.

Lemma fields_NoDup (n : addr) : NoDup ((13 + n) :: fields (contextAt n)).
Proof.
  unfold fields, contextAt. cbn [Credentials Context Console HttpClient
    CoreClientOptions ArmClientOptions_ CommandRunner ConfigManager Container
    AlphaFeaturesManager SubscriptionCredentialProvider
    MultiTenantCredentialProvider Config].
  repeat (apply NoDup_cons; split;
          [rewrite ?not_elem_of_cons; repeat split; try lia; apply not_elem_of_nil|]).
  apply NoDup_nil_2.
Qed.

(** X14. Every field of a new mock context points to an object of its own:
    the thirteen objects and the context are pairwise distinct.  The
    context cell holds the [ctx] passed in, [Config] is an empty
    configuration, the feature manager is built on that same
    configuration, and the two credential providers are fakes. *)
Theorem mock_context_objects (ctx : string) (h : heap) :
  ∃ mockContext mc h',
    NewMockContext ctx h = Returns (mockContext, h') ∧
    store h' !! mockContext = Some (MockContextObj mc) ∧
    NoDup (mockContext :: fields mc) ∧
    store h' !! Context mc = Some (ContextCell ctx) ∧
    store h' !! Config mc = Some EmptyConfig ∧
    store h' !! AlphaFeaturesManager mc = Some (FeatureManager (Config mc)) ∧
    store h' !! SubscriptionCredentialProvider mc
    = Some MockSubscriptionCredentialProvider ∧
    store h' !! MultiTenantCredentialProvider mc
    = Some MockMultiTenantCredentialProvider.
Proof.
  destruct (NewMockContext_store ctx h)
    as (h' & Hrun & _ & Hw & _ & _ & _ & Hconfig & _ & _ & _ & Hctx & _ & _
        & Hsub & Hmulti & Halpha).
  exists (13 + next h), (contextAt (next h)), h'.
  split; [exact Hrun|]. split; [apply Hw|]. split; [apply fields_NoDup|].
  repeat split; assumption.
Qed.

(** ** Two contexts *)

(** X15. Mock contexts built one after the other are independent: building
    the second leaves the first context and what its container resolves
    as they were, and no object of the first is an object of the
    second. *)
Theorem mock_contexts_are_independent (ctx1 ctx2 : string) (h : heap) :
  ∃ p1 mc1 h1 p2 mc2 h2,
    NewMockContext ctx1 h = Returns (p1, h1) ∧
    NewMockContext ctx2 h1 = Returns (p2, h2) ∧
    store h1 !! p1 = Some (MockContextObj mc1) ∧
    store h2 !! p1 = Some (MockContextObj mc1) ∧
    store h2 !! p2 = Some (MockContextObj mc2) ∧
    (∀ type, Resolve h2 (Container mc1) type = Resolve h1 (Container mc1) type) ∧
    (∀ a, a ∈ fields mc1 → store h2 !! a = store h1 !! a) ∧
    (∀ a b, a ∈ p1 :: fields mc1 → b ∈ p2 :: fields mc2 → a ≠ b).
Proof.
  destruct (NewMockContext_store ctx1 h) as (h1 & Hrun1 & Hnext1 & Hw1 & _).
  destruct (NewMockContext_store ctx2 h1)
    as (h2 & Hrun2 & _ & Hw2 & Hframe & _).
  cbv zeta in *.
  exists (13 + next h), (contextAt (next h)), h1,
         (13 + next h1), (contextAt (next h1)), h2.
  assert (wired h2 (13 + next h) (contextAt (next h)) None
            (commonMocks (13 + next h) ∅)) as Hw1'.
  { destruct Hw1 as [Hmc Hc]. split.
    - rewrite Hframe; [exact Hmc|lia].
    - rewrite Hframe; [exact Hc|]. rewrite Hnext1. cbn [Container contextAt]. lia. }
  split; [exact Hrun1|]. split; [exact Hrun2|]. split; [apply Hw1|].
  split; [apply Hw1'|]. split; [apply Hw2|].
  split.
  { intros type. by rewrite (Resolve_common _ _ _ _ Hw1),
      (Resolve_common _ _ _ _ Hw1'). }
  split.
  { intros a Ha. apply fields_bounds in Ha. apply Hframe. lia. }
  intros a b Ha Hb. rewrite elem_of_cons in Ha, Hb.
  assert (a < 14 + next h) as Hlt
    by (destruct Ha as [->|Ha]; [lia|apply fields_bounds in Ha; lia]).
  assert (next h1 ≤ b) as Hge
    by (destruct Hb as [->|Hb]; [lia|apply fields_bounds in Hb; lia]).
  lia.
Qed.

End MocksMore.
